(** * TravelTranslate: the translation proxy and the translator page

    A shallow embedding of
    - [src/app/api/translate/route.ts] (the [POST] handler), and
    - [src/app/page.tsx] (the state of [TranslatorApp] and its handlers).

    JavaScript strings are lists of UTF-16 code units ([jsstr]); literals of
    the source are written as UTF-8 Rocq strings and decoded by [js]. *)

From Stdlib Require Import List String Ascii NArith ZArith QArith Bool Lia.
From Stdlib Require Decimal DecimalN.
Import ListNotations.

Open Scope list_scope.

(* ------------------------------------------------------------------------- *)
(** ** JavaScript strings and values *)

Definition jsstr := list N.

(** Decoding of the UTF-8 bytes of a Rocq literal into UTF-16 code units. *)
Fixpoint utf8_units (bs : list N) : list N :=
  match bs with
  | [] => []
  | b :: r =>
      if (b <? 128)%N then b :: utf8_units r
      else if (b <? 224)%N then
        match r with
        | c :: r' => (N.land b 31 * 64 + N.land c 63)%N :: utf8_units r'
        | [] => [65533%N]
        end
      else if (b <? 240)%N then
        match r with
        | c1 :: c2 :: r' =>
            (N.land b 15 * 4096 + N.land c1 63 * 64 + N.land c2 63)%N
              :: utf8_units r'
        | _ => [65533%N]
        end
      else
        match r with
        | c1 :: c2 :: c3 :: r' =>
            let cp := (N.land b 7 * 262144 + N.land c1 63 * 4096
                       + N.land c2 63 * 64 + N.land c3 63 - 65536)%N in
            (55296 + N.shiftr cp 10)%N :: (56320 + N.land cp 1023)%N
              :: utf8_units r'
        | _ => [65533%N]
        end
  end.

Definition js (s : string) : jsstr :=
  utf8_units (map (fun a => N.of_nat (nat_of_ascii a)) (list_ascii_of_string s)).

Fixpoint jsstr_eqb (a b : jsstr) : bool :=
  match a, b with
  | [], [] => true
  | x :: a', y :: b' => N.eqb x y && jsstr_eqb a' b'
  | _, _ => false
  end.

Lemma jsstr_eqb_eq : forall a b, jsstr_eqb a b = true <-> a = b.
Proof.
  induction a as [|x a IH]; intros [|y b]; simpl; try (split; congruence).
  rewrite andb_true_iff, IH, N.eqb_eq. split.
  - intros [-> ->]; reflexivity.
  - intros H; inversion H; auto.
Qed.

(** [String.prototype.includes]. *)
Fixpoint starts_with (pre s : jsstr) : bool :=
  match pre, s with
  | [], _ => true
  | c :: pre', d :: s' => N.eqb c d && starts_with pre' s'
  | _ :: _, [] => false
  end.

Fixpoint includes (s sub : jsstr) : bool :=
  starts_with sub s || match s with [] => false | _ :: s' => includes s' sub end.

(** WhiteSpace and LineTerminator code units, as [String.prototype.trim]
    removes them (ECMA-262, 22.1.3.32). *)
Definition js_ws_units : list N :=
  [9; 10; 11; 12; 13; 32; 160; 5760; 8192; 8193; 8194; 8195; 8196; 8197;
   8198; 8199; 8200; 8201; 8202; 8232; 8233; 8239; 8287; 12288; 65279]%N.

Definition is_js_ws (c : N) : bool := existsb (N.eqb c) js_ws_units.

Fixpoint drop_ws (s : jsstr) : jsstr :=
  match s with
  | c :: r => if is_js_ws c then drop_ws r else s
  | [] => []
  end.

(** [String.prototype.trim]. *)
Definition trim (s : jsstr) : jsstr := rev (drop_ws (rev (drop_ws s))).

(** Decimal digits of a non-negative integer. *)
Fixpoint uint_units (d : Decimal.uint) : jsstr :=
  match d with
  | Decimal.Nil => []
  | Decimal.D0 u => 48%N :: uint_units u | Decimal.D1 u => 49%N :: uint_units u
  | Decimal.D2 u => 50%N :: uint_units u | Decimal.D3 u => 51%N :: uint_units u
  | Decimal.D4 u => 52%N :: uint_units u | Decimal.D5 u => 53%N :: uint_units u
  | Decimal.D6 u => 54%N :: uint_units u | Decimal.D7 u => 55%N :: uint_units u
  | Decimal.D8 u => 56%N :: uint_units u | Decimal.D9 u => 57%N :: uint_units u
  end.

(** [n.toString()] for a safe integer [n], as [Date.now().toString()]. *)
Definition N_to_jsstr (n : N) : jsstr := uint_units (N.to_uint n).

Fixpoint assoc {A} (k : jsstr) (l : list (jsstr * A)) : option A :=
  match l with
  | [] => None
  | (k', v) :: l' => if jsstr_eqb k k' then Some v else assoc k l'
  end.

(** *** Numbers

    A JSON number written as an integer [z] is parsed to the binary64 value
    nearest to [z] (ties to even), or to an infinity when it is too large. *)

(** Rounding of a positive integer to binary64; [None] on overflow. *)
Definition round_binary64_pos (x : Z) : option Z :=
  let b := Z.log2 x in
  if (b <? 53)%Z then Some x else
  let sh := (b - 52)%Z in
  let q := Z.shiftr x sh in
  let r := (x - Z.shiftl q sh)%Z in
  let half := Z.shiftl 1 (sh - 1) in
  let q' := if (half <? r)%Z || ((r =? half)%Z && Z.odd q) then (q + 1)%Z else q in
  let v := Z.shiftl q' sh in
  if (v <? 2 ^ 1024)%Z then Some v else None.

(** The Number values an integer literal can denote: integers and the two
    infinities ([-0] prints as [0], so it is [Finite 0]). *)
Inductive number := Finite (x : Z) | Infinite (negative : bool).

Definition number_of_int (z : Z) : number :=
  match z with
  | Z0 => Finite 0
  | Zpos p => match round_binary64_pos (Zpos p) with
              | Some v => Finite v | None => Infinite false end
  | Zneg p => match round_binary64_pos (Zpos p) with
              | Some v => Finite (- v) | None => Infinite true end
  end.

Definition ndigits (x : Z) : Z := Z.of_nat (List.length (N_to_jsstr (Z.to_N x))).

(** [Number::toString] (ECMA-262, 6.1.6.1.20) for a positive integer [x]:
    the fewest digits [s] (with [s * 10^e] rounding back to [x], the closest
    such [s], the even one on a tie) ... *)
Definition shortest_at (x k : Z) : option (Z * Z) :=
  let e := (ndigits x - k)%Z in
  let p := (10 ^ e)%Z in
  let c1 := (x / p)%Z in
  let c2 := (c1 + 1)%Z in
  let ok c := match round_binary64_pos (c * p) with Some v => (v =? x)%Z | None => false end in
  match ok c1, ok c2 with
  | true, true =>
      let d1 := (x - c1 * p)%Z in
      let d2 := (c2 * p - x)%Z in
      if (d1 <? d2)%Z then Some (c1, e)
      else if (d2 <? d1)%Z then Some (c2, e)
      else if Z.even c1 then Some (c1, e) else Some (c2, e)
  | true, false => Some (c1, e)
  | false, true => Some (c2, e)
  | false, false => None
  end.

Fixpoint shortest_from (fuel : nat) (x k : Z) : Z * Z :=
  match fuel with
  | O => (x, 0%Z)
  | S fuel' => match shortest_at x k with
               | Some r => r
               | None => shortest_from fuel' x (k + 1)
               end
  end.

Fixpoint strip_zeros (fuel : nat) (s e : Z) : Z * Z :=
  match fuel with
  | O => (s, e)
  | S fuel' => if ((s mod 10 =? 0)%Z && (0 <? s)%Z)
               then strip_zeros fuel' (s / 10) (e + 1) else (s, e)
  end.

(** ... written out in full up to 21 digits, in exponent form beyond. *)
Definition pos_to_jsstr (x : Z) : jsstr :=
  let '(s0, e0) := shortest_from (Z.to_nat (ndigits x)) x 1 in
  let '(s, e) := strip_zeros (Z.to_nat (ndigits s0)) s0 e0 in
  let ds := N_to_jsstr (Z.to_N s) in
  let n := (Z.of_nat (List.length ds) + e)%Z in
  if (n <=? 21)%Z then ds ++ repeat 48%N (Z.to_nat e)
  else (match ds with
        | [c] => [c]
        | c :: r => c :: 46%N :: r
        | [] => []
        end) ++ [101; 43]%N ++ N_to_jsstr (Z.to_N (n - 1)).

Definition number_to_jsstr (v : number) : jsstr :=
  match v with
  | Infinite false => js "Infinity"
  | Infinite true => js "-Infinity"
  | Finite x =>
      if (x =? 0)%Z then js "0"
      else if (x <? 0)%Z then 45%N :: pos_to_jsstr (- x) else pos_to_jsstr x
  end.

(** *** Values

    JavaScript values as they reach the code: the JSON values of a request
    body (numbers written as integers; fractions are not modelled) and the
    results of property reads on an object literal. *)
#[warnings="-register-all"]
Inductive jsval :=
| JUndef
| JNull
| JBool (b : bool)
| JNum (z : Z)                        (* a JSON number literal of value z *)
| JStr (s : jsstr)
| JArr (elems : list jsval)           (* a JSON array *)
| JObj (props : list (jsstr * jsval)) (* a JSON object and its own properties *)
| JFun (name : jsstr)                 (* a built-in function *)
| JObjectPrototype.                   (* Object.prototype *)

(** [!!v] *)
Definition truthy (v : jsval) : bool :=
  match v with
  | JUndef | JNull => false
  | JBool b => b
  | JNum z => match number_of_int z with Finite x => negb (Z.eqb x 0) | Infinite _ => true end
  | JStr s => match s with [] => false | _ => true end
  | JArr _ | JObj _ | JFun _ | JObjectPrototype => true
  end.

(** [ToString] (and [ToPropertyKey]), as used by template literals and
    computed property reads; [None] when it throws a [TypeError].
    - An array is converted by [Array.prototype.join] with [","], which
      writes [undefined] and [null] elements as empty strings.
    - A JSON object is converted by [OrdinaryToPrimitive]: its [toString]
      is tried, then its [valueOf].  An object without an own [toString]
      property uses [Object.prototype.toString].  An own [toString]
      property holds a JSON value, which is not callable; then
      [Object.prototype.valueOf] returns the object itself, which is not a
      primitive, so the conversion throws. *)
Fixpoint js_to_string (v : jsval) : option jsstr :=
  match v with
  | JUndef => Some (js "undefined")
  | JNull => Some (js "null")
  | JBool true => Some (js "true")
  | JBool false => Some (js "false")
  | JNum z => Some (number_to_jsstr (number_of_int z))
  | JStr s => Some s
  | JArr l =>
      let elem (x : jsval) :=
        match x with JUndef | JNull => Some [] | _ => js_to_string x end in
      (fix join (l : list jsval) : option jsstr :=
         match l with
         | [] => Some []
         | x :: r =>
             match elem x with
             | None => None
             | Some sx =>
                 match r with
                 | [] => Some sx
                 | _ :: _ => match join r with
                             | Some sr => Some (sx ++ [44%N] ++ sr)
                             | None => None
                             end
                 end
             end
         end) l
  | JObj props =>
      match assoc (js "toString") props with
      | Some _ => None
      | None => Some (js "[object Object]")
      end
  | JFun n => Some (js "function " ++ n ++ js "() { [native code] }")
  | JObjectPrototype => Some (js "[object Object]")
  end.

(* ------------------------------------------------------------------------- *)
(** ** The proxy: [src/app/api/translate/route.ts] *)

Module Route.

(** A thrown value as the [catch] block reads it: [error?.status] and
    [error?.message] (a thrown value that is not an object reads as
    [JUndef] / [None]). *)
Record thrown := { th_status : jsval; th_message : option jsstr }.

(** The request sent by [openai.chat.completions.create]. *)
Record chat_message := { role : jsstr; content : jsstr }.
Record chat_request := {
  cr_api_key : jsstr;
  cr_model : jsstr;
  cr_messages : list chat_message;
  cr_temperature : Q;
  cr_max_tokens : Z }.

(** The completion returned by the provider, down to
    [completion.choices[i].message.content]. *)
Record completion_message := { cm_content : option jsstr }.
Record choice := { ch_message : option completion_message }.
Record completion := { choices : list choice }.

Inductive provider_outcome :=
| Completed (c : completion)
| Threw (e : thrown).

(** [NextResponse.json(body, { status })]. *)
Inductive resp_body :=
| BError (msg : jsstr)          (* { error: msg } *)
| BTranslation (t : jsstr).     (* { translation: t } *)

Record response := { status : Z; body : resp_body }.

Definition json (b : resp_body) (st : Z) : response := {| status := st; body := b |}.

(** The handler either answers at once or awaits exactly one provider call
    and answers from its outcome. *)
Inductive exec :=
| Ret (r : response)
| CallProvider (req : chat_request) (k : provider_outcome -> response).

(** The outcome of [await request.json()] followed by the destructuring of
    [text], [sourceLang], [targetLang].  A JSON body that is not [null] is
    [BodyObj] with the three property reads ([JUndef] when absent; a
    primitive or array body reads [JUndef] for all three). *)
Inductive request_body :=
| BodyInvalid (e : thrown)    (* request.json() rejects *)
| BodyNull                    (* the body is the JSON value null *)
| BodyObj (text sourceLang targetLang : jsval).

Definition destructure_null_error : thrown :=
  {| th_status := JUndef;
     th_message := Some (js "Cannot destructure property 'text' of '(intermediate value)' as it is null.") |}.

(** What [request.json()] rejects with on an empty body. *)
Definition empty_body_error : thrown :=
  {| th_status := JUndef; th_message := Some (js "Unexpected end of JSON input") |}.

Definition languageNames : list (jsstr * jsstr) :=
  [(js "pt", js "Português"); (js "en", js "Inglês"); (js "es", js "Espanhol");
   (js "fr", js "Francês"); (js "de", js "Alemão"); (js "it", js "Italiano");
   (js "ja", js "Japonês"); (js "ko", js "Coreano"); (js "zh", js "Chinês");
   (js "ar", js "Árabe"); (js "ru", js "Russo"); (js "hi", js "Hindi")].

(** The properties an object literal inherits from [Object.prototype]. *)
Definition object_prototype : list (jsstr * jsval) :=
  [(js "constructor", JFun (js "Object"));
   (js "__defineGetter__", JFun (js "__defineGetter__"));
   (js "__defineSetter__", JFun (js "__defineSetter__"));
   (js "hasOwnProperty", JFun (js "hasOwnProperty"));
   (js "__lookupGetter__", JFun (js "__lookupGetter__"));
   (js "__lookupSetter__", JFun (js "__lookupSetter__"));
   (js "isPrototypeOf", JFun (js "isPrototypeOf"));
   (js "propertyIsEnumerable", JFun (js "propertyIsEnumerable"));
   (js "toString", JFun (js "toString"));
   (js "valueOf", JFun (js "valueOf"));
   (js "__proto__", JObjectPrototype);
   (js "toLocaleString", JFun (js "toLocaleString"))].

(** [languageNames[key]]: the key is converted by [ToPropertyKey] (which
    may throw), then read as an own property, else an inherited one, else
    [undefined]. *)
Definition languageName (key : jsval) : option jsval :=
  match js_to_string key with
  | None => None
  | Some k =>
      match assoc k languageNames with
      | Some n => Some (JStr n)
      | None => match assoc k object_prototype with
                | Some v => Some v
                | None => Some JUndef
                end
      end
  end.

(** The text of the template literal, given its three substitutions. *)
Definition prompt_template (s1 s2 t : jsstr) : jsstr :=
  js "Traduza o seguinte texto de " ++ s1 ++ js " para " ++ s2
  ++ js ". 
Retorne APENAS a tradução, sem explicações ou texto adicional.

Texto: " ++ t.

(** The template literal: each substitution is evaluated and converted in
    turn; [None] when one of them throws. *)
Definition prompt (text sourceLang targetLang : jsval) : option jsstr :=
  match languageName sourceLang with None => None | Some ns =>
  match js_to_string ns with None => None | Some s1 =>
  match languageName targetLang with None => None | Some nt =>
  match js_to_string nt with None => None | Some s2 =>
  match js_to_string text with None => None | Some t =>
    Some (prompt_template s1 s2 t)
  end end end end end.

(** The [TypeError] thrown by a failed conversion. *)
Definition to_primitive_error : thrown :=
  {| th_status := JUndef;
     th_message := Some (js "Cannot convert object to primitive value") |}.

Definition system_content : jsstr :=
  js "Você é um tradutor profissional especializado em tradução precisa e natural entre idiomas. Retorne apenas a tradução solicitada, sem explicações.".

Definition chat_request_of (apiKey user_prompt : jsstr) : chat_request :=
  {| cr_api_key := apiKey;
     cr_model := js "gpt-4o";
     cr_messages := [ {| role := js "system"; content := system_content |};
                      {| role := js "user"; content := user_prompt |} ];
     cr_temperature := 3 # 10;
     cr_max_tokens := 1000%Z |}.

(** [completion.choices[0]?.message?.content?.trim() || ""] *)
Definition extract_translation (c : completion) : jsstr :=
  let t := match choices c with
           | ch :: _ => match ch_message ch with
                        | Some m => option_map trim (cm_content m)
                        | None => None
                        end
           | [] => None
           end in
  match t with Some ((_ :: _) as s) => s | _ => [] end.

Definition msg_bad_request : jsstr := js "Parâmetros inválidos".
Definition msg_misconfigured : jsstr :=
  js "Chave da OpenAI não configurada. Configure OPENAI_API_KEY nas variáveis de ambiente.".
Definition msg_unauthorized : jsstr := js "Chave da OpenAI inválida. Verifique sua configuração.".
Definition msg_rate_limited : jsstr := js "Limite de uso da API atingido. Tente novamente mais tarde.".
Definition msg_upstream : jsstr := js "Erro ao processar tradução. Tente novamente.".

Definition status_is (e : thrown) (n : Z) : bool :=
  match th_status e with JNum z => Z.eqb z n | _ => false end.

Definition message_includes (e : thrown) (sub : jsstr) : bool :=
  match th_message e with Some m => includes m sub | None => false end.

(** The [catch] block. *)
Definition catch_response (e : thrown) : response :=
  if status_is e 401 || message_includes e (js "Incorrect API key")
  then json (BError msg_unauthorized) 401
  else if status_is e 429
  then json (BError msg_rate_limited) 429
  else json (BError msg_upstream) 500.

(** [POST], given [process.env.OPENAI_API_KEY] and the parsed body. *)
Definition POST (env_key : option jsstr) (b : request_body) : exec :=
  match b with
  | BodyInvalid e => Ret (catch_response e)
  | BodyNull => Ret (catch_response destructure_null_error)
  | BodyObj text sourceLang targetLang =>
      if negb (truthy text) || negb (truthy sourceLang) || negb (truthy targetLang)
      then Ret (json (BError msg_bad_request) 400)
      else match env_key with
           | None | Some [] => Ret (json (BError msg_misconfigured) 500)
           | Some apiKey =>
               match prompt text sourceLang targetLang with
               | None => Ret (catch_response to_primitive_error)
               | Some p =>
                   CallProvider (chat_request_of apiKey p)
                     (fun o => match o with
                               | Completed c => json (BTranslation (extract_translation c)) 200
                               | Threw e => catch_response e
                               end)
               end
           end
  end.

End Route.

(* ------------------------------------------------------------------------- *)
(** ** The translator page: [src/app/page.tsx] *)

Module Page.

(** [interface Translation]; [timestamp] is the clock reading of [new Date()]
    in milliseconds. *)
Record translation := {
  id : jsstr;
  from : jsstr;
  to : jsstr;
  original : jsstr;
  translated : jsstr;
  timestamp : N }.

(** The [useState] hooks of [TranslatorApp]. *)
Record state := {
  sourceText : jsstr;
  translatedText : jsstr;
  sourceLang : jsstr;
  targetLang : jsstr;
  isTranslating : bool;
  history : list translation;
  showHistory : bool;
  copied : bool;
  apiError : option jsstr }.

Definition initial_state : state :=
  {| sourceText := []; translatedText := []; sourceLang := js "pt";
     targetLang := js "en"; isTranslating := false; history := [];
     showHistory := false; copied := false; apiError := None |}.

(** The setters returned by [useState]. *)
Definition setSourceText (v : jsstr) (s : state) : state :=
  {| sourceText := v; translatedText := translatedText s; sourceLang := sourceLang s;
     targetLang := targetLang s; isTranslating := isTranslating s; history := history s;
     showHistory := showHistory s; copied := copied s; apiError := apiError s |}.
Definition setTranslatedText (v : jsstr) (s : state) : state :=
  {| sourceText := sourceText s; translatedText := v; sourceLang := sourceLang s;
     targetLang := targetLang s; isTranslating := isTranslating s; history := history s;
     showHistory := showHistory s; copied := copied s; apiError := apiError s |}.
Definition setSourceLang (v : jsstr) (s : state) : state :=
  {| sourceText := sourceText s; translatedText := translatedText s; sourceLang := v;
     targetLang := targetLang s; isTranslating := isTranslating s; history := history s;
     showHistory := showHistory s; copied := copied s; apiError := apiError s |}.
Definition setTargetLang (v : jsstr) (s : state) : state :=
  {| sourceText := sourceText s; translatedText := translatedText s; sourceLang := sourceLang s;
     targetLang := v; isTranslating := isTranslating s; history := history s;
     showHistory := showHistory s; copied := copied s; apiError := apiError s |}.
Definition setIsTranslating (v : bool) (s : state) : state :=
  {| sourceText := sourceText s; translatedText := translatedText s; sourceLang := sourceLang s;
     targetLang := targetLang s; isTranslating := v; history := history s;
     showHistory := showHistory s; copied := copied s; apiError := apiError s |}.
Definition setHistory (v : list translation) (s : state) : state :=
  {| sourceText := sourceText s; translatedText := translatedText s; sourceLang := sourceLang s;
     targetLang := targetLang s; isTranslating := isTranslating s; history := v;
     showHistory := showHistory s; copied := copied s; apiError := apiError s |}.
Definition setShowHistory (v : bool) (s : state) : state :=
  {| sourceText := sourceText s; translatedText := translatedText s; sourceLang := sourceLang s;
     targetLang := targetLang s; isTranslating := isTranslating s; history := history s;
     showHistory := v; copied := copied s; apiError := apiError s |}.
Definition setCopied (v : bool) (s : state) : state :=
  {| sourceText := sourceText s; translatedText := translatedText s; sourceLang := sourceLang s;
     targetLang := targetLang s; isTranslating := isTranslating s; history := history s;
     showHistory := showHistory s; copied := v; apiError := apiError s |}.
Definition setApiError (v : option jsstr) (s : state) : state :=
  {| sourceText := sourceText s; translatedText := translatedText s; sourceLang := sourceLang s;
     targetLang := targetLang s; isTranslating := isTranslating s; history := history s;
     showHistory := showHistory s; copied := copied s; apiError := v |}.

(** Observable side effects of the handlers. *)
Inductive effect :=
| ToastError (msg : jsstr)
| ToastSuccess (msg : jsstr)
| Fetch (text sourceLang targetLang : jsstr)   (* POST /api/translate *)
| ConsoleError
| ClipboardWrite (t : jsstr)
| Speak (t lang : jsstr)
| ScheduleCopiedReset.                         (* setTimeout(.., 2000) *)

Definition is_fetch (e : effect) : bool :=
  match e with Fetch _ _ _ => true | _ => false end.

(** The parsed body of a response of [/api/translate]: [data.error] (absent
    or [null] as [None]) and [data.translation]. *)
Record response_data := { d_error : option jsstr; d_translation : jsstr }.

(** How the [fetch] of [handleTranslate] ends. *)
Inductive fetch_outcome :=
| FetchThrew                                           (* fetch rejects *)
| Responded (ok : bool) (data : option response_data). (* None: response.json() rejects *)

Definition msg_empty : jsstr := js "Digite um texto para traduzir".
Definition msg_default_error : jsstr := js "Erro ao traduzir".
Definition msg_connection : jsstr := js "Erro ao conectar com o servidor. Tente novamente.".
Definition msg_done : jsstr := js "Tradução concluída!".

(** [data.error || "Erro ao traduzir"] *)
Definition error_or_default (e : option jsstr) : jsstr :=
  match e with Some ((_ :: _) as m) => m | _ => msg_default_error end.

(** [handleTranslate] up to its [await]: the early return, or the request
    together with the render's values the rest of the handler closes over. *)
Definition translate_start (s : state) : state * list effect * option state :=
  match trim (sourceText s) with
  | [] => (s, [ToastError msg_empty], None)
  | _ => (setApiError None (setIsTranslating true s),
          [Fetch (sourceText s) (sourceLang s) (targetLang s)], Some s)
  end.

(** The rest of [handleTranslate], once the request settles: [snap] is the
    closed-over render, [cur] the state the setters act on, [now_id] the
    reading of [Date.now()] and [now_ts] that of [new Date()]. *)
Definition translate_finish (snap : state) (o : fetch_outcome) (now_id now_ts : N)
  (cur : state) : state * list effect :=
  let '(s1, eff) :=
    match o with
    | FetchThrew | Responded _ None =>
        (setApiError (Some msg_connection) cur, [ToastError msg_connection; ConsoleError])
    | Responded false (Some data) =>
        let m := error_or_default (d_error data) in
        (setApiError (Some m) cur, [ToastError m])
    | Responded true (Some data) =>
        let newTranslation :=
          {| id := N_to_jsstr now_id; from := sourceLang snap; to := targetLang snap;
             original := sourceText snap; translated := d_translation data;
             timestamp := now_ts |} in
        (setHistory (newTranslation :: firstn 9 (history snap))
           (setTranslatedText (d_translation data) cur),
         [ToastSuccess msg_done])
    end in
  (setIsTranslating false s1, eff).

(** [handleTranslate] run to completion with nothing in between. *)
Definition handleTranslate (s : state) (o : fetch_outcome) (now_id now_ts : N)
  : state * list effect :=
  match translate_start s with
  | (s1, eff1, None) => (s1, eff1)
  | (s1, eff1, Some snap) =>
      let '(s2, eff2) := translate_finish snap o now_id now_ts s1 in (s2, eff1 ++ eff2)
  end.

Definition swapLanguages (s : state) : state :=
  setTranslatedText (sourceText s)
    (setSourceText (translatedText s)
       (setTargetLang (sourceLang s) (setSourceLang (targetLang s) s))).

Definition loadFromHistory (item : translation) (s : state) : state :=
  setShowHistory false
    (setTranslatedText (translated item)
       (setSourceText (original item)
          (setTargetLang (to item) (setSourceLang (from item) s)))).

(** The codes offered by the two [Select]s ([languages]). *)
Definition language_codes : list jsstr :=
  map js ["pt"; "en"; "es"; "fr"; "de"; "it"; "ja"; "ko"; "zh"; "ar"; "ru"; "hi"]%string.

Definition msg_no_speech : jsstr := js "Seu navegador não suporta síntese de voz".
Definition msg_copied : jsstr := js "Texto copiado!".
Definition msg_loaded : jsstr := js "Tradução carregada do histórico".

(** [speakText(text, lang)]; [supported] is ['speechSynthesis' in window]. *)
Definition speakText (supported : bool) (text lang : jsstr) : list effect :=
  if supported then [Speak text lang] else [ToastError msg_no_speech].

(** [copyToClipboard] *)
Definition copyToClipboard (s : state) : state * list effect :=
  (setCopied true s, [ClipboardWrite (translatedText s); ToastSuccess msg_copied;
                      ScheduleCopiedReset]).

(** The page as the user drives it: the state and the requests in flight,
    each with the render its [handleTranslate] closed over. *)
Record page := { ui : state; in_flight : list state }.

Definition initial_page : page := {| ui := initial_state; in_flight := [] |}.

(** What can happen on the rendered page. *)
Inductive ui_event :=
| ClickHistoryButton
| SelectSource (c : jsstr)
| SelectTarget (c : jsstr)
| ClickSwap
| EditSource (t : jsstr)
| ClickSpeakSource (supported : bool)
| ClickSpeakTarget (supported : bool)
| ClickCopy
| CopiedTimeout
| ClickTranslate
| RequestSettled (j : nat) (o : fetch_outcome) (now_id now_ts : N)
| ClickHistoryItem (i : nat).

Fixpoint remove_nth {A} (j : nat) (l : list A) : list A :=
  match j, l with
  | _, [] => []
  | O, _ :: l' => l'
  | S j', x :: l' => x :: remove_nth j' l'
  end.

Definition nonempty (t : jsstr) : bool := match t with [] => false | _ => true end.

(** One event; [None] when the control is not rendered or is disabled. *)
Definition ui_step (e : ui_event) (p : page) : option (page * list effect) :=
  let s := ui p in
  let keep s' := {| ui := s'; in_flight := in_flight p |} in
  match e with
  | ClickHistoryButton => Some (keep (setShowHistory (negb (showHistory s)) s), [])
  | SelectSource c =>
      if existsb (jsstr_eqb c) language_codes then Some (keep (setSourceLang c s), [])
      else None
  | SelectTarget c =>
      if existsb (jsstr_eqb c) language_codes then Some (keep (setTargetLang c s), [])
      else None
  | ClickSwap => Some (keep (swapLanguages s), [])
  | EditSource t => Some (keep (setSourceText t s), [])
  | ClickSpeakSource sup =>
      if nonempty (sourceText s) then Some (keep s, speakText sup (sourceText s) (sourceLang s))
      else None
  | ClickSpeakTarget sup =>
      if nonempty (translatedText s)
      then Some (keep s, speakText sup (translatedText s) (targetLang s))
      else None
  | ClickCopy =>
      if nonempty (translatedText s)
      then let '(s', eff) := copyToClipboard s in Some (keep s', eff)
      else None
  | CopiedTimeout => Some (keep (setCopied false s), [])
  | ClickTranslate =>
      (* disabled={isTranslating || !sourceText.trim()} *)
      if isTranslating s || negb (nonempty (trim (sourceText s))) then None
      else let '(s1, eff, snap) := translate_start s in
           Some ({| ui := s1;
                    in_flight := in_flight p ++ match snap with Some r => [r] | None => [] end |},
                 eff)
  | RequestSettled j o now_id now_ts =>
      match nth_error (in_flight p) j with
      | Some snap =>
          let '(s', eff) := translate_finish snap o now_id now_ts s in
          Some ({| ui := s'; in_flight := remove_nth j (in_flight p) |}, eff)
      | None => None
      end
  | ClickHistoryItem i =>
      (* the list is rendered when showHistory && history.length > 0 *)
      if showHistory s then
        match nth_error (history s) i with
        | Some item => Some (keep (loadFromHistory item s), [ToastSuccess msg_loaded])
        | None => None
        end
      else None
  end.

Inductive reachable : page -> Prop :=
| reachable_init : reachable initial_page
| reachable_step : forall p e p' eff,
    reachable p -> ui_step e p = Some (p', eff) -> reachable p'.

Fixpoint run (es : list ui_event) (p : page) : option page :=
  match es with
  | [] => Some p
  | e :: es' => match ui_step e p with Some (p', _) => run es' p' | None => None end
  end.

End Page.

(* ------------------------------------------------------------------------- *)
(** ** Facts about [trim] *)

Lemma drop_ws_split : forall s,
  exists pre, s = pre ++ drop_ws s /\ Forall (fun c => is_js_ws c = true) pre /\
  (forall c r, drop_ws s = c :: r -> is_js_ws c = false).
Proof.
  induction s as [|c s IH]; simpl.
  - exists []; repeat split; auto; discriminate.
  - case_eq (is_js_ws c); intro Hc.
    + destruct IH as (pre & E & F & H). exists (c :: pre). simpl.
      rewrite <- E. repeat split; auto.
    + exists []. simpl. repeat split; auto. intros c' r H; inversion H; subst; auto.
Qed.

(** [trim s] is [s] without a whitespace prefix and suffix, and neither
    starts nor ends with whitespace. *)
Lemma trim_spec : forall s,
  (exists pre suf, s = pre ++ trim s ++ suf /\
     Forall (fun c => is_js_ws c = true) pre /\ Forall (fun c => is_js_ws c = true) suf) /\
  (forall c r, trim s = c :: r -> is_js_ws c = false) /\
  (forall r c, trim s = r ++ [c] -> is_js_ws c = false).
Proof.
  intro s. unfold trim.
  destruct (drop_ws_split s) as (pre & E1 & F1 & H1).
  set (d := drop_ws s) in *.
  destruct (drop_ws_split (rev d)) as (pre2 & E2 & F2 & H2).
  set (d2 := drop_ws (rev d)) in *.
  assert (Ed : d = rev d2 ++ rev pre2).
  { rewrite <- rev_app_distr, <- E2, rev_involutive. reflexivity. }
  repeat split.
  - exists pre, (rev pre2). split.
    + rewrite E1 at 1. rewrite Ed. reflexivity.
    + split; auto. apply Forall_rev; auto.
  - intros c r Hr. apply (H1 c (r ++ rev pre2)). rewrite Ed, Hr. reflexivity.
  - intros r c Hr. apply (H2 c (rev r)).
    rewrite <- (rev_involutive d2), Hr, rev_app_distr. reflexivity.
Qed.

Lemma trim_nil_all_ws : forall s, trim s = [] -> Forall (fun c => is_js_ws c = true) s.
Proof.
  intros s H. destruct (trim_spec s) as ((pre & suf & E & F1 & F2) & _ & _).
  rewrite H in E. simpl in E. subst s. apply Forall_app; auto.
Qed.

(* ------------------------------------------------------------------------- *)
(** ** The proxy *)

Module RouteFacts.
Import Route.

Lemma POST_valid_calls_provider : forall key text sourceLang targetLang p,
  key <> [] -> truthy text = true -> truthy sourceLang = true -> truthy targetLang = true ->
  prompt text sourceLang targetLang = Some p ->
  POST (Some key) (BodyObj text sourceLang targetLang) =
  CallProvider (chat_request_of key p)
    (fun o => match o with
              | Completed c => json (BTranslation (extract_translation c)) 200
              | Threw e => catch_response e
              end).
Proof.
  intros key text sl tl p Hk Ht Hs Hl Hp. unfold POST.
  rewrite Ht, Hs, Hl. destruct key as [|c key]; [congruence|].
  cbv beta iota. rewrite Hp. reflexivity.
Qed.

Lemma POST_prompt_throws : forall key text sourceLang targetLang,
  key <> [] -> truthy text = true -> truthy sourceLang = true -> truthy targetLang = true ->
  prompt text sourceLang targetLang = None ->
  POST (Some key) (BodyObj text sourceLang targetLang) = Ret (json (BError msg_upstream) 500).
Proof.
  intros key text sl tl Hk Ht Hs Hl Hp. unfold POST.
  rewrite Ht, Hs, Hl. destruct key as [|c key]; [congruence|].
  cbv beta iota. rewrite Hp. reflexivity.
Qed.

(** The properties inherited from [Object.prototype] are built-in functions
    and [Object.prototype] itself. *)
Lemma inherited_values : forall k v,
  assoc k object_prototype = Some v -> v = JObjectPrototype \/ exists f, v = JFun f.
Proof.
  assert (Hin : forall A k (l : list (jsstr * A)) v, assoc k l = Some v -> In v (map snd l)).
  { intros A k l v. induction l as [|[k' w] l IH]; cbn [assoc map snd In]; [discriminate|].
    destruct (jsstr_eqb k k'); [intro H; injection H as <-; left; reflexivity|].
    intro H; right; auto. }
  intros k v H. apply Hin in H. unfold object_prototype in H. cbn [map snd In] in H.
  repeat (destruct H as [H|H]; [subst v; first [left; reflexivity | right; eexists; reflexivity]|]).
  destruct H.
Qed.

(** The text [languageNames[k]] puts into the prompt, for a key whose
    property-key string is [k]. *)
Definition code_name (k : jsstr) : jsstr :=
  match assoc k languageNames with
  | Some n => n
  | None => match assoc k object_prototype with
            | Some (JFun f) => js "function " ++ f ++ js "() { [native code] }"
            | Some _ => js "[object Object]"
            | None => js "undefined"
            end
  end.

Lemma languageName_converts : forall v k,
  js_to_string v = Some k ->
  exists n, languageName v = Some n /\ js_to_string n = Some (code_name k).
Proof.
  intros v k Hv. unfold languageName, code_name. rewrite Hv.
  destruct (assoc k languageNames) as [n|]; [eexists; split; reflexivity|].
  destruct (assoc k object_prototype) as [w|] eqn:E; [|eexists; split; reflexivity].
  destruct (inherited_values _ _ E) as [-> | [f ->]]; eexists; split; reflexivity.
Qed.

Lemma languageName_throws : forall v, js_to_string v = None -> languageName v = None.
Proof. intros v H. unfold languageName. rewrite H. reflexivity. Qed.

(** The prompt is built exactly when the three fields convert to strings. *)
Lemma prompt_converts : forall text sourceLang targetLang t s1 s2,
  js_to_string text = Some t -> js_to_string sourceLang = Some s1 ->
  js_to_string targetLang = Some s2 ->
  prompt text sourceLang targetLang = Some (prompt_template (code_name s1) (code_name s2) t).
Proof.
  intros text sl tl t s1 s2 Ht Hs Hl.
  destruct (languageName_converts sl s1 Hs) as (n1 & E1 & F1).
  destruct (languageName_converts tl s2 Hl) as (n2 & E2 & F2).
  unfold prompt. rewrite E1, F1, E2, F2, Ht. reflexivity.
Qed.

Lemma prompt_None_iff : forall text sourceLang targetLang,
  prompt text sourceLang targetLang = None <->
  js_to_string text = None \/ js_to_string sourceLang = None \/ js_to_string targetLang = None.
Proof.
  intros text sl tl. split.
  - intro H.
    destruct (js_to_string text) as [t|] eqn:Ht; [|left; reflexivity].
    destruct (js_to_string sl) as [s1|] eqn:Hs; [|right; left; reflexivity].
    destruct (js_to_string tl) as [s2|] eqn:Hl; [|right; right; reflexivity].
    rewrite (prompt_converts text sl tl t s1 s2 Ht Hs Hl) in H. discriminate.
  - intros [H | [H | H]]; unfold prompt.
    + destruct (languageName sl) as [n1|]; [|reflexivity].
      destruct (js_to_string n1); [|reflexivity].
      destruct (languageName tl) as [n2|]; [|reflexivity].
      destruct (js_to_string n2); [|reflexivity].
      rewrite H. reflexivity.
    + rewrite (languageName_throws sl H). reflexivity.
    + destruct (languageName sl) as [n1|]; [|reflexivity].
      destruct (js_to_string n1); [|reflexivity].
      rewrite (languageName_throws tl H). reflexivity.
Qed.

Lemma prompt_strings : forall t s1 s2,
  prompt (JStr t) (JStr s1) (JStr s2) = Some (prompt_template (code_name s1) (code_name s2) t).
Proof. intros t s1 s2. apply prompt_converts; reflexivity. Qed.

(** C1 (as stated: every body missing a field is answered with 400),
    refuted: an empty body, which has none of the fields, makes
    [request.json()] reject, and the JSON body [null] makes the
    destructuring throw; both land in the [catch] block and are answered
    with the generic HTTP 500. *)
Lemma POST_missing_fields_cex :
  POST (Some (js "sk-live")) (BodyInvalid empty_body_error) = Ret (json (BError msg_upstream) 500) /\
  POST (Some (js "sk-live")) BodyNull = Ret (json (BError msg_upstream) 500).
Proof. split; reflexivity. Qed.

(** C1 (amended): for a body that is a JSON value other than [null], a
    missing or empty field (in general a falsy one: [undefined], [null],
    [""], [0], [false]) is answered with HTTP 400 and
    [{ error: "Parâmetros inválidos" }] at once, whatever the
    configuration, without a provider call.  A body that is not JSON (an
    empty one included), whose parse error carries no [status], is answered
    by the [catch] block with HTTP 500 and the generic message, or with
    HTTP 401 when the parser's message contains "Incorrect API key"; the
    body [null] is answered with HTTP 500 and the generic message. *)
Theorem POST_falsy_field_bad_request :
  (forall env text sourceLang targetLang,
     truthy text = false \/ truthy sourceLang = false \/ truthy targetLang = false ->
     POST env (BodyObj text sourceLang targetLang) = Ret (json (BError msg_bad_request) 400)) /\
  (forall env e, th_status e = JUndef ->
     POST env (BodyInvalid e) =
     Ret (if message_includes e (js "Incorrect API key")
          then json (BError msg_unauthorized) 401
          else json (BError msg_upstream) 500)) /\
  (forall env, POST env BodyNull = Ret (json (BError msg_upstream) 500)).
Proof.
  split; [|split].
  - intros env t s l H. unfold POST.
    assert (Hf : negb (truthy t) || negb (truthy s) || negb (truthy l) = true).
    { destruct H as [H | [H | H]]; rewrite H; simpl; rewrite ?orb_true_r; reflexivity. }
    rewrite Hf. reflexivity.
  - intros env e He. unfold POST, catch_response, status_is. rewrite He.
    cbn [orb]. destruct (message_includes e (js "Incorrect API key")); reflexivity.
  - intro env. reflexivity.
Qed.

Lemma POST_falsy_field_bad_request_witness :
  POST (Some (js "sk-live")) (BodyObj (JStr (js "Hello")) JUndef (JStr (js "pt")))
  = Ret (json (BError msg_bad_request) 400) /\
  POST (Some (js "sk-live")) (BodyObj (JStr []) (JStr (js "en")) (JStr (js "pt")))
  = Ret (json (BError msg_bad_request) 400) /\
  POST (Some (js "sk-live")) (BodyInvalid empty_body_error) = Ret (json (BError msg_upstream) 500).
Proof.
  split; [|split].
  - apply (proj1 POST_falsy_field_bad_request). right; left; reflexivity.
  - apply (proj1 POST_falsy_field_bad_request). left; reflexivity.
  - exact (proj1 (proj2 POST_falsy_field_bad_request) (Some (js "sk-live")) empty_body_error eq_refl).
Defined.

(** C6: with a valid body and no credential in the environment ([undefined],
    or the empty string, which [!apiKey] also rejects), the handler answers
    HTTP 500 with the misconfiguration message, without a provider call. *)
Theorem POST_missing_key_misconfigured : forall env text sourceLang targetLang,
  env = None \/ env = Some [] ->
  truthy text = true -> truthy sourceLang = true -> truthy targetLang = true ->
  POST env (BodyObj text sourceLang targetLang) = Ret (json (BError msg_misconfigured) 500).
Proof.
  intros env t s l He Ht Hs Hl. unfold POST. rewrite Ht, Hs, Hl. simpl.
  destruct He as [-> | ->]; reflexivity.
Qed.

Lemma POST_missing_key_misconfigured_witness :
  POST None (BodyObj (JStr (js "Hello")) (JStr (js "en")) (JStr (js "pt")))
  = Ret (json (BError msg_misconfigured) 500).
Proof.
  apply POST_missing_key_misconfigured; [left; reflexivity | reflexivity | reflexivity | reflexivity].
Defined.

(** How the [catch] block tells failures apart: an authentication failure
    is one with [status === 401] or whose message mentions
    "Incorrect API key" (both branches of the first test, which is tried
    first); a rate or quota failure is one with [status === 429]. *)
Definition auth_failure (e : thrown) : Prop :=
  status_is e 401 = true \/ message_includes e (js "Incorrect API key") = true.
Definition rate_failure (e : thrown) : Prop := status_is e 429 = true.

(** C2: for a valid body and a configured credential, once the provider is
    called, an authentication failure is answered with HTTP 401, a
    rate/quota failure with HTTP 429, and any other failure with HTTP 500
    and the generic message; and the one unexpected failure before the call
    (a field whose conversion to a string throws while the prompt is built)
    is answered with HTTP 500 and the generic message.  Every one has an
    [{ error: message }] body. *)
Theorem POST_provider_error_mapping : forall key text sourceLang targetLang,
  key <> [] -> truthy text = true -> truthy sourceLang = true -> truthy targetLang = true ->
  (forall p, prompt text sourceLang targetLang = Some p ->
   exists k,
     POST (Some key) (BodyObj text sourceLang targetLang) = CallProvider (chat_request_of key p) k /\
     forall e,
       (auth_failure e -> k (Threw e) = json (BError msg_unauthorized) 401) /\
       (rate_failure e -> ~ auth_failure e -> k (Threw e) = json (BError msg_rate_limited) 429) /\
       (~ auth_failure e -> ~ rate_failure e -> k (Threw e) = json (BError msg_upstream) 500)) /\
  (prompt text sourceLang targetLang = None ->
   POST (Some key) (BodyObj text sourceLang targetLang) = Ret (json (BError msg_upstream) 500)).
Proof.
  intros key t s l Hk Ht Hs Hl. split; [|exact (POST_prompt_throws key t s l Hk Ht Hs Hl)].
  intros p Hp. rewrite (POST_valid_calls_provider key t s l p Hk Ht Hs Hl Hp).
  eexists. split; [reflexivity|]. intro e. unfold auth_failure, rate_failure.
  unfold catch_response.
  repeat split.
  - intros [H | H]; rewrite H; [reflexivity | rewrite orb_true_r; reflexivity].
  - intros H429 Hna.
    destruct (status_is e 401) eqn:E1; [exfalso; apply Hna; left; reflexivity|].
    destruct (message_includes e (js "Incorrect API key")) eqn:E2;
      [exfalso; apply Hna; right; reflexivity|].
    simpl. rewrite H429. reflexivity.
  - intros Hna Hnr.
    destruct (status_is e 401) eqn:E1; [exfalso; apply Hna; left; reflexivity|].
    destruct (message_includes e (js "Incorrect API key")) eqn:E2;
      [exfalso; apply Hna; right; reflexivity|].
    destruct (status_is e 429) eqn:E3; [exfalso; apply Hnr; reflexivity|].
    reflexivity.
Qed.

Lemma POST_provider_error_mapping_witness :
  (exists p, prompt (JStr (js "Hello")) (JStr (js "en")) (JStr (js "pt")) = Some p /\
   exists k,
     POST (Some (js "sk-live")) (BodyObj (JStr (js "Hello")) (JStr (js "en")) (JStr (js "pt")))
     = CallProvider (chat_request_of (js "sk-live") p) k /\
     forall e,
       (auth_failure e -> k (Threw e) = json (BError msg_unauthorized) 401) /\
       (rate_failure e -> ~ auth_failure e -> k (Threw e) = json (BError msg_rate_limited) 429) /\
       (~ auth_failure e -> ~ rate_failure e -> k (Threw e) = json (BError msg_upstream) 500)) /\
  POST (Some (js "sk-live")) (BodyObj (JObj [(js "toString", JNum 1)]) (JStr (js "en")) (JStr (js "pt")))
  = Ret (json (BError msg_upstream) 500).
Proof.
  split.
  - destruct (prompt (JStr (js "Hello")) (JStr (js "en")) (JStr (js "pt"))) as [p|] eqn:E;
      [|vm_compute in E; discriminate].
    exists p. split; [reflexivity|].
    exact (proj1 (POST_provider_error_mapping (js "sk-live") (JStr (js "Hello")) (JStr (js "en")) (JStr (js "pt"))
                    ltac:(discriminate) eq_refl eq_refl eq_refl) p E).
  - apply (proj2 (POST_provider_error_mapping (js "sk-live")
                    (JObj [(js "toString", JNum 1)]) (JStr (js "en")) (JStr (js "pt"))
                    ltac:(discriminate) eq_refl eq_refl eq_refl)).
    vm_compute. reflexivity.
Defined.

(** [completion.choices[0]?.message?.content] *)
Definition first_content (c : completion) : option jsstr :=
  match choices c with
  | ch :: _ => match ch_message ch with Some m => cm_content m | None => None end
  | [] => None
  end.

(** C5: once the provider is called (valid body, credential configured,
    prompt built), a completion is answered with HTTP 200 and
    [{ translation: s }], where [s] is the first choice's content with its
    surrounding whitespace removed, or [""] when there is no content. *)
Theorem POST_success_trimmed_translation : forall key text sourceLang targetLang p,
  key <> [] -> truthy text = true -> truthy sourceLang = true -> truthy targetLang = true ->
  prompt text sourceLang targetLang = Some p ->
  exists k,
    POST (Some key) (BodyObj text sourceLang targetLang) = CallProvider (chat_request_of key p) k /\
    forall c,
      k (Completed c) = json (BTranslation (extract_translation c)) 200 /\
      (first_content c = None -> extract_translation c = []) /\
      (forall s, first_content c = Some s ->
         extract_translation c = trim s /\
         (exists pre suf, s = pre ++ trim s ++ suf /\
            Forall (fun u => is_js_ws u = true) pre /\
            Forall (fun u => is_js_ws u = true) suf) /\
         (forall u r, trim s = u :: r -> is_js_ws u = false) /\
         (forall r u, trim s = r ++ [u] -> is_js_ws u = false)).
Proof.
  intros key t sl tl p Hk Ht Hs Hl Hp.
  rewrite (POST_valid_calls_provider key t sl tl p Hk Ht Hs Hl Hp).
  eexists. split; [reflexivity|]. intro c.
  assert (Ex : extract_translation c =
               match first_content c with Some s => trim s | None => [] end).
  { unfold extract_translation, first_content.
    destruct (choices c) as [|ch r]; [reflexivity|].
    destruct (ch_message ch) as [m|]; [|reflexivity].
    destruct (cm_content m) as [s|]; [|reflexivity]. simpl.
    destruct (trim s); reflexivity. }
  split; [reflexivity|]. split.
  - intro H. rewrite Ex, H. reflexivity.
  - intros s H. rewrite Ex, H. split; [reflexivity|]. apply trim_spec.
Qed.

Lemma POST_success_trimmed_translation_witness :
  exists p, prompt (JStr (js "Hello")) (JStr (js "en")) (JStr (js "pt")) = Some p /\
  exists k,
    POST (Some (js "sk-live")) (BodyObj (JStr (js "Hello")) (JStr (js "en")) (JStr (js "pt")))
    = CallProvider (chat_request_of (js "sk-live") p) k /\
    forall c,
      k (Completed c) = json (BTranslation (extract_translation c)) 200 /\
      (first_content c = None -> extract_translation c = []) /\
      (forall s, first_content c = Some s ->
         extract_translation c = trim s /\
         (exists pre suf, s = pre ++ trim s ++ suf /\
            Forall (fun u => is_js_ws u = true) pre /\
            Forall (fun u => is_js_ws u = true) suf) /\
         (forall u r, trim s = u :: r -> is_js_ws u = false) /\
         (forall r u, trim s = r ++ [u] -> is_js_ws u = false)).
Proof.
  destruct (prompt (JStr (js "Hello")) (JStr (js "en")) (JStr (js "pt"))) as [p|] eqn:E;
    [|vm_compute in E; discriminate].
  exists p. split; [reflexivity|].
  exact (POST_success_trimmed_translation (js "sk-live") (JStr (js "Hello")) (JStr (js "en")) (JStr (js "pt")) p
           ltac:(discriminate) eq_refl eq_refl eq_refl E).
Defined.

Example extract_translation_ola :
  extract_translation {| choices := [ {| ch_message := Some {| cm_content := Some (js " Olá
") |} |} ] |}
  = js "Olá".
Proof. reflexivity. Qed.

Example extract_translation_no_choice : extract_translation {| choices := [] |} = [].
Proof. reflexivity. Qed.

Definition user_prompt (r : chat_request) : jsstr :=
  match cr_messages r with _ :: m :: _ => content m | _ => [] end.

(** C8 (as stated: every non-empty code outside the table is interpolated as
    an undefined or empty name), refuted: ["toString"] is not a code of the
    table, yet the handler interpolates [Object.prototype.toString], so the
    prompt carries ["function toString() { [native code] }"] and no
    ["undefined"]. *)
Lemma POST_unknown_code_toString_cex :
  assoc (js "toString") languageNames = None /\
  match POST (Some (js "sk-live"))
          (BodyObj (JStr (js "Hello")) (JStr (js "toString")) (JStr (js "en"))) with
  | CallProvider req _ =>
      includes (user_prompt req) (js "undefined") = false /\
      includes (user_prompt req) (js "de function toString() { [native code] } para") = true
  | Ret _ => False
  end.
Proof. vm_compute. auto. Qed.

(** C8 (amended): with a credential configured, a request whose text and
    codes are non-empty strings is never rejected for its codes: the
    provider is called with the prompt (the template literal
    [prompt_template]) built from [languageNames[sourceLang]],
    [languageNames[targetLang]] and the text.  A code of the table gives its name; a
    code outside the table gives ["undefined"], unless it names a property
    inherited from [Object.prototype], whose string form is interpolated
    instead (["function toString() { [native code] }"] for ["toString"],
    ["[object Object]"] for ["__proto__"]). *)
Theorem POST_unknown_code_passthrough : forall key text sourceLang targetLang,
  key <> [] -> text <> [] -> sourceLang <> [] -> targetLang <> [] ->
  (exists k, POST (Some key) (BodyObj (JStr text) (JStr sourceLang) (JStr targetLang))
             = CallProvider (chat_request_of key
                 (prompt_template (code_name sourceLang) (code_name targetLang) text)) k) /\
  (forall code name, assoc code languageNames = Some name -> code_name code = name) /\
  (forall code f, assoc code languageNames = None -> assoc code object_prototype = Some (JFun f) ->
     code_name code = js "function " ++ f ++ js "() { [native code] }") /\
  (forall code, assoc code languageNames = None -> assoc code object_prototype = Some JObjectPrototype ->
     code_name code = js "[object Object]") /\
  (forall code, assoc code languageNames = None -> assoc code object_prototype = None ->
     code_name code = js "undefined").
Proof.
  intros key t sl tl Hk Ht Hs Hl.
  split; [|split; [|split; [|split]]].
  - eexists. apply POST_valid_calls_provider.
    + exact Hk.
    + destruct t; [contradiction | reflexivity].
    + destruct sl; [contradiction | reflexivity].
    + destruct tl; [contradiction | reflexivity].
    + apply prompt_strings.
  - intros code name H. unfold code_name. rewrite H. reflexivity.
  - intros code f H1 H2. unfold code_name. rewrite H1, H2. reflexivity.
  - intros code H1 H2. unfold code_name. rewrite H1, H2. reflexivity.
  - intros code H1 H2. unfold code_name. rewrite H1, H2. reflexivity.
Qed.

Lemma POST_unknown_code_passthrough_witness :
  exists k, POST (Some (js "sk-live")) (BodyObj (JStr (js "Hello")) (JStr (js "xx")) (JStr (js "en")))
            = CallProvider (chat_request_of (js "sk-live")
                 (prompt_template (code_name (js "xx")) (code_name (js "en")) (js "Hello"))) k.
Proof.
  apply (POST_unknown_code_passthrough (js "sk-live") (js "Hello") (js "xx") (js "en"));
    discriminate.
Defined.

End RouteFacts.

(* ------------------------------------------------------------------------- *)
(** ** The translator page *)

Module PageFacts.
Import Page.
Local Open Scope nat_scope.

Definition is_failure (o : fetch_outcome) : bool :=
  match o with
  | FetchThrew | Responded false _ | Responded _ None => true
  | Responded true (Some _) => false
  end.

Lemma translate_finish_failure : forall snap o now_id now_ts cur,
  is_failure o = true ->
  exists m, fst (translate_finish snap o now_id now_ts cur)
            = setIsTranslating false (setApiError (Some m) cur).
Proof.
  intros snap o i t cur H.
  destruct o as [|[|] [d|]]; simpl in H; try discriminate; eexists; reflexivity.
Qed.

Lemma translate_finish_success : forall snap data now_id now_ts cur,
  fst (translate_finish snap (Responded true (Some data)) now_id now_ts cur) =
  setIsTranslating false
    (setHistory ({| id := N_to_jsstr now_id; from := sourceLang snap; to := targetLang snap;
                    original := sourceText snap; translated := d_translation data;
                    timestamp := now_ts |} :: firstn 9 (history snap))
       (setTranslatedText (d_translation data) cur)).
Proof. reflexivity. Qed.

Lemma prepend_firstn_9_length : forall {A} (x : A) l, List.length (x :: firstn 9 l) <= 10.
Proof. intros A x l. cbn [List.length]. rewrite length_firstn. lia. Qed.

(** The page invariant: at most ten records, and at most one request in
    flight, exactly while [isTranslating] holds, whose render has the
    current history. *)
Definition page_inv (p : page) : Prop :=
  List.length (history (ui p)) <= 10 /\
  ((in_flight p = [] /\ isTranslating (ui p) = false) \/
   (exists snap, in_flight p = [snap] /\ isTranslating (ui p) = true /\
                 history snap = history (ui p))).

Ltac keep_inv H :=
  inversion H; subst; unfold page_inv in *; simpl in *; auto.

Lemma ui_step_inv : forall p e p' eff,
  page_inv p -> ui_step e p = Some (p', eff) -> page_inv p'.
Proof.
  intros [s fl] e p' eff [Hlen Hfl] H. simpl in Hlen, Hfl.
  destruct e; unfold ui_step in H; cbn beta iota zeta delta [ui in_flight] in H.
  - keep_inv H.
  - destruct (existsb (jsstr_eqb c) language_codes); [keep_inv H | discriminate].
  - destruct (existsb (jsstr_eqb c) language_codes); [keep_inv H | discriminate].
  - keep_inv H.
  - keep_inv H.
  - destruct (nonempty (sourceText s)); [keep_inv H | discriminate].
  - destruct (nonempty (translatedText s)); [keep_inv H | discriminate].
  - destruct (nonempty (translatedText s)); [keep_inv H | discriminate].
  - keep_inv H.
  - destruct (isTranslating s) eqn:Ei; [discriminate|].
    unfold translate_start in H.
    destruct (trim (sourceText s)) eqn:Et; [discriminate|]. simpl in H.
    destruct Hfl as [[-> _] | (snap & _ & Ht & _)]; [|congruence].
    inversion H; subst. unfold page_inv; simpl. split; auto.
    right. exists s. auto.
  - destruct (nth_error fl j) as [snap|] eqn:En; [|discriminate].
    destruct Hfl as [[-> _] | (snap0 & -> & _ & Hh)];
      [destruct j; discriminate|].
    destruct j as [|j]; [|destruct j; discriminate].
    simpl in En. inversion En; subst snap0.
    destruct (translate_finish snap o now_id now_ts s) as [s' eff'] eqn:Ef.
    inversion H; subst. unfold page_inv; simpl. split; [|left; split; auto].
    + destruct (is_failure o) eqn:Eo.
      * destruct (translate_finish_failure snap o now_id now_ts s Eo) as [m Hm].
        rewrite Ef in Hm. simpl in Hm. rewrite Hm. exact Hlen.
      * destruct o as [|[|] [d|]]; simpl in Eo; try discriminate.
        pose proof (translate_finish_success snap d now_id now_ts s) as Hs.
        rewrite Ef in Hs. simpl in Hs. rewrite Hs. apply prepend_firstn_9_length.
    + destruct o as [|[|] [d|]]; inversion Ef; reflexivity.
  - destruct (showHistory s); [|discriminate].
    destruct (nth_error (history s) i); [keep_inv H | discriminate].
Qed.

Lemma reachable_inv : forall p, reachable p -> page_inv p.
Proof.
  induction 1.
  - unfold page_inv; simpl. split; [lia | left; auto].
  - eapply ui_step_inv; eauto.
Qed.

Lemma run_reachable : forall es p p', reachable p -> run es p = Some p' -> reachable p'.
Proof.
  induction es as [|e es IH]; simpl; intros p p' Hr H.
  - inversion H; subst; auto.
  - destruct (ui_step e p) as [[p1 eff]|] eqn:E; [|discriminate].
    apply (IH p1); auto. eapply reachable_step; eauto.
Qed.

Lemma settled_success_step : forall s snap data now_id now_ts,
  ui_step (RequestSettled 0 (Responded true (Some data)) now_id now_ts)
          {| ui := s; in_flight := [snap] |} =
  Some ({| ui := fst (translate_finish snap (Responded true (Some data)) now_id now_ts s);
           in_flight := [] |},
        snd (translate_finish snap (Responded true (Some data)) now_id now_ts s)).
Proof. reflexivity. Qed.

(** C3: in every state the page can reach, the history has at most ten
    records; and when the request in flight succeeds, the new record goes to
    the front of the history and the records past index 8 are dropped (with
    ten records, the one at index 9). *)
Theorem history_bounded_prepend : forall p,
  reachable p ->
  List.length (history (ui p)) <= 10 /\
  forall j data now_id now_ts p' eff,
    ui_step (RequestSettled j (Responded true (Some data)) now_id now_ts) p = Some (p', eff) ->
    exists rec,
      history (ui p') = rec :: firstn 9 (history (ui p)) /\
      translated rec = d_translation data /\
      (List.length (history (ui p)) = 10 ->
       exists r9, history (ui p) = firstn 9 (history (ui p)) ++ [r9] /\
                  nth_error (history (ui p)) 9 = Some r9).
Proof.
  intros p Hr. destruct (reachable_inv p Hr) as [Hlen Hfl]. split; [exact Hlen|].
  intros j data i t p' eff H. destruct p as [s fl]. cbn [ui in_flight] in *.
  destruct Hfl as [[-> _] | (snap & -> & _ & Hh)]; [destruct j; cbn in H; discriminate|].
  destruct j as [|j]; [|destruct j; cbn in H; discriminate].
  rewrite settled_success_step in H. injection H as Hp _. subst p'. cbn [ui].
  eexists. split; [rewrite <- Hh; reflexivity|]. split; [reflexivity|].
  intro H10. destruct (nth_error (history s) 9) as [r9|] eqn:E9.
  - exists r9. split; [|reflexivity].
    rewrite <- (firstn_skipn 9 (history s)) at 1. f_equal.
    assert (Hsk : List.length (skipn 9 (history s)) = 1) by (rewrite length_skipn; lia).
    destruct (skipn 9 (history s)) as [|x [|y r]] eqn:Esk; simpl in Hsk; try lia.
    rewrite <- (firstn_skipn 9 (history s)) in E9.
    rewrite nth_error_app2 in E9; rewrite ?length_firstn; try lia.
    rewrite Esk, length_firstn in E9. replace (9 - Nat.min 9 (List.length (history s))) with 0 in E9 by lia.
    simpl in E9. congruence.
  - apply nth_error_None in E9. lia.
Qed.

(** A successful answer of the proxy. *)
Definition ok_answer : fetch_outcome :=
  Responded true (Some {| d_error := None; d_translation := js "Olá" |}).

(** Ten successful translations, then an eleventh request in flight. *)
Definition ten_translations : list ui_event :=
  EditSource (js "Hello")
  :: flat_map (fun i => [ClickTranslate; RequestSettled 0 ok_answer i i])
       (map N.of_nat (seq 1 10))
  ++ [ClickTranslate].

Definition page_ten : page :=
  Eval vm_compute in
  match run ten_translations initial_page with Some p => p | None => initial_page end.

Lemma page_ten_reachable : reachable page_ten.
Proof.
  apply (run_reachable ten_translations initial_page); [apply reachable_init|].
  vm_compute. reflexivity.
Qed.

Lemma history_bounded_prepend_witness :
  List.length (history (ui page_ten)) = 10 /\
  exists p' eff,
    ui_step (RequestSettled 0 ok_answer 11 11) page_ten = Some (p', eff) /\
    List.length (history (ui page_ten)) <= 10 /\
    exists rec,
      history (ui p') = rec :: firstn 9 (history (ui page_ten)) /\
      translated rec = js "Olá" /\
      exists r9, history (ui page_ten) = firstn 9 (history (ui page_ten)) ++ [r9] /\
                 nth_error (history (ui page_ten)) 9 = Some r9.
Proof.
  destruct (history_bounded_prepend page_ten page_ten_reachable) as [Hb Hs].
  assert (H10 : List.length (history (ui page_ten)) = 10) by (vm_compute; reflexivity).
  split; [exact H10|].
  destruct (ui_step (RequestSettled 0 ok_answer 11 11) page_ten) as [[p' eff]|] eqn:E;
    [|vm_compute in E; discriminate].
  exists p', eff. split; [reflexivity|]. split; [exact Hb|].
  destruct (Hs 0 _ 11%N 11%N p' eff E) as (rec & H1 & H2 & H3).
  exists rec. split; [exact H1|]. split; [exact H2|]. exact (H3 H10).
Defined.

(** C4: [swapLanguages] exchanges the two languages and the two texts,
    leaves the rest of the state alone, issues nothing, and applied twice
    gives back the state it started from. *)
Theorem swapLanguages_involutive : forall s p,
  sourceLang (swapLanguages s) = targetLang s /\
  targetLang (swapLanguages s) = sourceLang s /\
  sourceText (swapLanguages s) = translatedText s /\
  translatedText (swapLanguages s) = sourceText s /\
  swapLanguages (swapLanguages s) = s /\
  ui_step ClickSwap p = Some ({| ui := swapLanguages (ui p); in_flight := in_flight p |}, []).
Proof. intros [] p. repeat split. Qed.

(** C7: when the source text trims to the empty string, [handleTranslate]
    shows the validation toast, issues no request and leaves the state as
    it is, whatever the server would have answered. *)
Theorem handleTranslate_blank_source : forall s,
  trim (sourceText s) = [] ->
  translate_start s = (s, [ToastError msg_empty], None) /\
  forall o now_id now_ts, handleTranslate s o now_id now_ts = (s, [ToastError msg_empty]).
Proof.
  intros s H. unfold handleTranslate, translate_start. rewrite H. auto.
Qed.

Lemma handleTranslate_blank_source_witness :
  let s := setSourceText (js " 
	 ") initial_state in
  translate_start s = (s, [ToastError msg_empty], None) /\
  forall o now_id now_ts, handleTranslate s o now_id now_ts = (s, [ToastError msg_empty]).
Proof. intro s. apply handleTranslate_blank_source. reflexivity. Defined.

(** C10: a [handleTranslate] whose request fails (the fetch rejects, the
    answer is not ok, or its body is not JSON) changes [apiError] and
    [isTranslating] only; likewise the completion of a failed request
    against whatever state the page has by then. *)
Theorem handleTranslate_failure_frame : forall s o now_id now_ts,
  trim (sourceText s) <> [] -> is_failure o = true ->
  (exists m, fst (handleTranslate s o now_id now_ts)
             = setIsTranslating false (setApiError (Some m) s)) /\
  (forall snap cur, exists m, fst (translate_finish snap o now_id now_ts cur)
                              = setIsTranslating false (setApiError (Some m) cur)).
Proof.
  intros s o i t Ht Ho. split.
  - unfold handleTranslate, translate_start.
    destruct (trim (sourceText s)) eqn:E; [congruence|].
    destruct (translate_finish_failure s o i t (setApiError None (setIsTranslating true s)) Ho)
      as [m Hm].
    destruct (translate_finish s o i t (setApiError None (setIsTranslating true s))) eqn:Ef.
    exists m. simpl in Hm |- *. rewrite Hm. destruct s; reflexivity.
  - intros snap cur. apply translate_finish_failure; auto.
Qed.

Lemma handleTranslate_failure_frame_witness :
  let s := setSourceText (js "Hello") initial_state in
  (exists m, fst (handleTranslate s FetchThrew 5 5)
             = setIsTranslating false (setApiError (Some m) s)) /\
  (forall snap cur, exists m, fst (translate_finish snap FetchThrew 5 5 cur)
                              = setIsTranslating false (setApiError (Some m) cur)).
Proof. intro s. apply handleTranslate_failure_frame; [discriminate | reflexivity]. Defined.

Lemma uint_units_inj : forall d1 d2, uint_units d1 = uint_units d2 -> d1 = d2.
Proof.
  induction d1; destruct d2; simpl; intro H; inversion H; try reflexivity; f_equal; auto.
Qed.

Lemma N_to_jsstr_inj : forall a b, N_to_jsstr a = N_to_jsstr b <-> a = b.
Proof.
  intros a b. split; [|intros ->; reflexivity].
  intro H. apply DecimalN.Unsigned.to_uint_inj. apply uint_units_inj. exact H.
Qed.

(** Two translations whose responses are handled at the same reading of
    [Date.now()] (a wall clock of millisecond resolution). *)
Definition same_ms_events : list ui_event :=
  [EditSource (js "Hello"); ClickTranslate;
   RequestSettled 0 (Responded true (Some {| d_error := None; d_translation := js "Olá" |}))
     1700000000000 1700000000000;
   EditSource (js "Goodbye"); ClickTranslate;
   RequestSettled 0 (Responded true (Some {| d_error := None; d_translation := js "Tchau" |}))
     1700000000000 1700000000000].

(** C9 (as stated: any two distinct records ever inserted have different
    ids), refuted: after two successful translations handled at the same
    clock reading, the history holds two different records with the id
    ["1700000000000"]. *)
Lemma translation_ids_collide_cex :
  exists p, reachable p /\
    exists r1 r2, In r1 (history (ui p)) /\ In r2 (history (ui p)) /\
                  r1 <> r2 /\ id r1 = id r2.
Proof.
  destruct (run same_ms_events initial_page) as [p|] eqn:E;
    [|vm_compute in E; discriminate].
  exists p. split; [exact (run_reachable _ _ _ reachable_init E)|].
  vm_compute in E. injection E as <-.
  eexists. eexists. split; [left; reflexivity|].
  split; [right; left; reflexivity|]. split; [discriminate | reflexivity].
Qed.

(** C9 (amended): records enter the history only when a request succeeds;
    the record then put at the front has as id the decimal string of the
    [Date.now()] reading; and two readings give the same id only when they
    are equal.  So ids are unique exactly as long as no two successful
    responses are handled at the same millisecond reading. *)
Theorem translation_ids_from_clock :
  (forall e p p' eff, ui_step e p = Some (p', eff) ->
     history (ui p') = history (ui p) \/
     exists j data now_id now_ts, e = RequestSettled j (Responded true (Some data)) now_id now_ts) /\
  (forall snap data now_id now_ts cur,
     exists rec rest,
       history (fst (translate_finish snap (Responded true (Some data)) now_id now_ts cur))
       = rec :: rest /\ id rec = N_to_jsstr now_id) /\
  (forall a b, N_to_jsstr a = N_to_jsstr b <-> a = b).
Proof.
  split; [|split].
  - intros e [s fl] p' eff H.
    destruct e; unfold ui_step in H; cbn beta iota zeta delta [ui in_flight] in H.
    + injection H as <- _. left; reflexivity.
    + destruct (existsb (jsstr_eqb c) language_codes); [|discriminate].
      injection H as <- _. left; reflexivity.
    + destruct (existsb (jsstr_eqb c) language_codes); [|discriminate].
      injection H as <- _. left; reflexivity.
    + injection H as <- _. left; reflexivity.
    + injection H as <- _. left; reflexivity.
    + destruct (nonempty (sourceText s)); [|discriminate].
      injection H as <- _. left; reflexivity.
    + destruct (nonempty (translatedText s)); [|discriminate].
      injection H as <- _. left; reflexivity.
    + destruct (nonempty (translatedText s)); [|discriminate].
      injection H as <- _. left; reflexivity.
    + injection H as <- _. left; reflexivity.
    + destruct (isTranslating s || negb (nonempty (trim (sourceText s)))); [discriminate|].
      unfold translate_start in H.
      destruct (trim (sourceText s)); injection H as <- _; left; reflexivity.
    + destruct (nth_error fl j) as [snap|]; [|discriminate].
      destruct (is_failure o) eqn:Eo.
      * destruct (translate_finish_failure snap o now_id now_ts s Eo) as [m Hm].
        destruct (translate_finish snap o now_id now_ts s) as [s' eff'].
        injection H as <- _. left. simpl in Hm |- *. rewrite Hm. reflexivity.
      * right. destruct o as [|[|] [d|]]; simpl in Eo; try discriminate.
        exists j, d, now_id, now_ts. reflexivity.
    + destruct (showHistory s); [|discriminate].
      destruct (nth_error (history s) i); [|discriminate].
      injection H as <- _. left; reflexivity.
  - intros snap data i t cur. eexists. eexists. split; reflexivity.
  - exact N_to_jsstr_inj.
Qed.

End PageFacts.

(* ------------------------------------------------------------------------- *)
(** ** More of the proxy *)

Module RouteMore.
Import Route RouteFacts.

(** The shape of every answer: 200 with a translation, or one of the error
    statuses with a non-empty [{ error }] message. *)
Definition well_formed (r : response) : Prop :=
  (status r = 200%Z /\ exists t, body r = BTranslation t) \/
  (In (status r) [400; 401; 429; 500]%Z /\ exists m, body r = BError m /\ m <> []).

Lemma catch_response_well_formed : forall e,
  well_formed (catch_response e) /\ status (catch_response e) <> 200%Z.
Proof.
  intro e. unfold catch_response.
  destruct (status_is e 401 || message_includes e (js "Incorrect API key"));
    [|destruct (status_is e 429)];
    (split; [right; split; [simpl; tauto | eexists; split; [reflexivity | discriminate]]
            | discriminate]).
Qed.

(** Every answer of [POST] is well formed; an answer given without a
    provider call is never a 200, so a translation only ever comes from the
    provider. *)
Theorem POST_answers_well_formed : forall env b,
  match POST env b with
  | Ret r => well_formed r /\ status r <> 200%Z
  | CallProvider _ k => forall o, well_formed (k o)
  end.
Proof.
  intros env b. unfold POST.
  destruct b as [e| |t s l]; [apply catch_response_well_formed
                             | apply catch_response_well_formed|].
  destruct (negb (truthy t) || negb (truthy s) || negb (truthy l)).
  - split; [right; split; [simpl; tauto | eexists; split; [reflexivity | discriminate]]
           | discriminate].
  - destruct env as [[|c key]|];
      try (split; [right; split; [simpl; tauto | eexists; split; [reflexivity | discriminate]]
                  | discriminate]).
    destruct (prompt t s l); [|apply catch_response_well_formed].
    intros [c0|e]; [left; split; [reflexivity | eexists; reflexivity]|].
    apply catch_response_well_formed.
Qed.

(** A body that is not JSON, or is the JSON [null], never reaches the
    provider and is never answered as a bad request: it falls into the
    [catch] block, and [null] is answered with the generic 500. *)
Theorem POST_malformed_body : forall env e,
  (exists r, POST env (BodyInvalid e) = Ret r /\ status r <> 400%Z) /\
  POST env BodyNull = Ret (json (BError msg_upstream) 500).
Proof.
  intros env e. split; [|reflexivity].
  eexists. split; [reflexivity|]. unfold catch_response.
  destruct (status_is e 401 || message_includes e (js "Incorrect API key"));
    [|destruct (status_is e 429)]; discriminate.
Qed.

(** The provider is called exactly when the three fields are truthy, a
    non-empty credential is configured and the prompt can be built (no
    field's conversion to a string throws); the call carries that
    credential and that prompt. *)
Theorem POST_calls_provider_iff : forall env b req k,
  POST env b = CallProvider req k <->
  exists text sourceLang targetLang p,
    b = BodyObj text sourceLang targetLang /\
    truthy text = true /\ truthy sourceLang = true /\ truthy targetLang = true /\
    env = Some (cr_api_key req) /\ cr_api_key req <> [] /\
    prompt text sourceLang targetLang = Some p /\
    req = chat_request_of (cr_api_key req) p /\
    k = (fun o => match o with
                  | Completed c => json (BTranslation (extract_translation c)) 200
                  | Threw e => catch_response e
                  end).
Proof.
  intros env b req k. split.
  - unfold POST. destruct b as [e| |t s l]; try discriminate.
    destruct (truthy t) eqn:Ht, (truthy s) eqn:Hs, (truthy l) eqn:Hl; simpl; try discriminate.
    destruct env as [[|c key]|]; try discriminate.
    destruct (prompt t s l) as [p|] eqn:Hp; [|discriminate].
    intro H. injection H as <- <-. exists t, s, l, p. simpl. repeat split; auto; discriminate.
  - intros (t & s & l & p & -> & Ht & Hs & Hl & -> & Hk & Hp & Hreq & ->).
    etransitivity; [apply (POST_valid_calls_provider _ t s l p Hk Ht Hs Hl Hp)|].
    rewrite <- Hreq. reflexivity.
Qed.

(** A valid request with a credential configured, one of whose fields
    cannot be converted to a string (a JSON object with an own [toString]
    property, also as an element of an array), makes the template literal
    throw a [TypeError]: the handler answers HTTP 500 with the generic
    message from the [catch] block, without a provider call. *)
Theorem POST_unconvertible_field : forall key text sourceLang targetLang,
  key <> [] -> truthy text = true -> truthy sourceLang = true -> truthy targetLang = true ->
  js_to_string text = None \/ js_to_string sourceLang = None \/ js_to_string targetLang = None ->
  POST (Some key) (BodyObj text sourceLang targetLang) = Ret (json (BError msg_upstream) 500).
Proof.
  intros key t s l Hk Ht Hs Hl H. apply POST_prompt_throws; auto.
  apply prompt_None_iff. exact H.
Qed.

Lemma POST_unconvertible_field_witness :
  POST (Some (js "sk-live")) (BodyObj (JObj [(js "toString", JNum 1)]) (JStr (js "en")) (JStr (js "pt")))
  = Ret (json (BError msg_upstream) 500) /\
  POST (Some (js "sk-live"))
    (BodyObj (JStr (js "Hello")) (JArr [JStr (js "en"); JObj [(js "toString", JStr [])]]) (JStr (js "pt")))
  = Ret (json (BError msg_upstream) 500).
Proof.
  split.
  - apply POST_unconvertible_field; [discriminate | reflexivity | reflexivity | reflexivity |].
    left; reflexivity.
  - apply POST_unconvertible_field; [discriminate | reflexivity | reflexivity | reflexivity |].
    right; left; reflexivity.
Defined.

End RouteMore.

(* ------------------------------------------------------------------------- *)
(** ** More of the page *)

Module PageMore.
Import Page PageFacts.
Local Open Scope nat_scope.

(** [languages] of page.tsx, with their display names. *)
Definition page_languages : list (jsstr * jsstr) :=
  [(js "pt", js "Português"); (js "en", js "Inglês"); (js "es", js "Espanhol");
   (js "fr", js "Francês"); (js "de", js "Alemão"); (js "it", js "Italiano");
   (js "ja", js "Japonês"); (js "ko", js "Coreano"); (js "zh", js "Chinês");
   (js "ar", js "Árabe"); (js "ru", js "Russo"); (js "hi", js "Hindi")].

(** Every language the page's selectors offer is named in the proxy's
    prompt by the display name the page shows for it. *)
Theorem page_languages_named_by_proxy :
  map fst page_languages = language_codes /\
  forall code name, In (code, name) page_languages ->
    Route.languageName (JStr code) = Some (JStr name).
Proof.
  split; [vm_compute; reflexivity|].
  intros code name H. cbn [In page_languages] in H.
  repeat (destruct H as [H|H]; [inversion H; subst; vm_compute; reflexivity|]).
  destruct H.
Qed.

Lemma page_languages_named_by_proxy_witness :
  Route.languageName (JStr (js "ja")) = Some (JStr (js "Japonês")).
Proof.
  apply (proj2 page_languages_named_by_proxy). simpl. tauto.
Defined.

(** A successful [handleTranslate]: one request, then the translation is
    shown, the record of this translation heads the history (cut to ten),
    the in-flight flag and the error are cleared, the inputs are kept. *)
Theorem handleTranslate_success_state : forall s data now_id now_ts,
  trim (sourceText s) <> [] ->
  let '(s', eff) := handleTranslate s (Responded true (Some data)) now_id now_ts in
  translatedText s' = d_translation data /\ isTranslating s' = false /\
  apiError s' = None /\ sourceText s' = sourceText s /\
  sourceLang s' = sourceLang s /\ targetLang s' = targetLang s /\
  history s' = {| id := N_to_jsstr now_id; from := sourceLang s; to := targetLang s;
                  original := sourceText s; translated := d_translation data;
                  timestamp := now_ts |} :: firstn 9 (history s) /\
  eff = [Fetch (sourceText s) (sourceLang s) (targetLang s); ToastSuccess msg_done].
Proof.
  intros s data i t H. unfold handleTranslate, translate_start.
  destruct (trim (sourceText s)); [congruence|].
  unfold translate_finish. cbv beta iota zeta.
  repeat (split; [reflexivity|]). reflexivity.
Qed.

Lemma handleTranslate_success_state_witness :
  let s := setTargetLang (js "pt") (setSourceLang (js "en") (setSourceText (js "Hello") initial_state)) in
  let '(s', eff) := handleTranslate s (Responded true (Some {| d_error := None; d_translation := js "Olá" |})) 1 1 in
  translatedText s' = js "Olá" /\ isTranslating s' = false /\
  apiError s' = None /\ sourceText s' = sourceText s /\
  sourceLang s' = sourceLang s /\ targetLang s' = targetLang s /\
  history s' = {| id := N_to_jsstr 1; from := sourceLang s; to := targetLang s;
                  original := sourceText s; translated := js "Olá";
                  timestamp := 1 |} :: firstn 9 (history s) /\
  eff = [Fetch (sourceText s) (sourceLang s) (targetLang s); ToastSuccess msg_done].
Proof. intro s. apply handleTranslate_success_state. discriminate. Defined.

(** The message a failed [handleTranslate] stores and toasts: the proxy's
    [error] when the answer is not ok and carries a non-empty one, the
    default "Erro ao traduzir" when it carries none, and the connection
    message when the request throws or its body is not JSON. *)
Theorem handleTranslate_failure_message : forall s o now_id now_ts,
  trim (sourceText s) <> [] ->
  let '(s', eff) := handleTranslate s o now_id now_ts in
  (forall d m, o = Responded false (Some d) -> d_error d = Some m -> m <> [] ->
     apiError s' = Some m /\ In (ToastError m) eff) /\
  (forall d, o = Responded false (Some d) -> (d_error d = None \/ d_error d = Some []) ->
     apiError s' = Some msg_default_error /\ In (ToastError msg_default_error) eff) /\
  ((o = FetchThrew \/ exists ok, o = Responded ok None) ->
     apiError s' = Some msg_connection /\ In (ToastError msg_connection) eff).
Proof.
  intros s o i t H. unfold handleTranslate, translate_start.
  destruct (trim (sourceText s)); [congruence|].
  unfold translate_finish.
  destruct o as [|[|] [d|]]; cbv beta iota zeta; (split; [|split]);
    intros; repeat match goal with
                   | H : _ \/ _ |- _ => destruct H
                   | H : exists _, _ |- _ => destruct H
                   end;
    try discriminate;
    try (split; [reflexivity | apply in_or_app; right; left; reflexivity]).
  - match goal with H : Responded _ _ = Responded _ _ |- _ => injection H as <- end.
    unfold error_or_default. rewrite H1. destruct m; [congruence|].
    split; [reflexivity | apply in_or_app; right; left; reflexivity].
  - match goal with H : Responded _ _ = Responded _ _ |- _ => injection H as <- end.
    unfold error_or_default. rewrite H1.
    split; [reflexivity | apply in_or_app; right; left; reflexivity].
  - match goal with H : Responded _ _ = Responded _ _ |- _ => injection H as <- end.
    unfold error_or_default. rewrite H1.
    split; [reflexivity | apply in_or_app; right; left; reflexivity].
Qed.

Lemma handleTranslate_failure_message_witness :
  let s := setSourceText (js "Hello") initial_state in
  let o := Responded false (Some {| d_error := Some (js "Chave da OpenAI inválida. Verifique sua configuração."); d_translation := [] |}) in
  let '(s', eff) := handleTranslate s o 1 1 in
  (forall d m, o = Responded false (Some d) -> d_error d = Some m -> m <> [] ->
     apiError s' = Some m /\ In (ToastError m) eff) /\
  (forall d, o = Responded false (Some d) -> (d_error d = None \/ d_error d = Some []) ->
     apiError s' = Some msg_default_error /\ In (ToastError msg_default_error) eff) /\
  ((o = FetchThrew \/ exists ok, o = Responded ok None) ->
     apiError s' = Some msg_connection /\ In (ToastError msg_connection) eff).
Proof. intros s o. apply handleTranslate_failure_message. discriminate. Defined.

(** [handleTranslate] issues exactly one request when the trimmed source is
    non-empty, and none otherwise; the request is its first effect and
    carries the untrimmed source text and the two language codes. *)
Theorem handleTranslate_one_fetch : forall s o now_id now_ts,
  List.length (filter is_fetch (snd (handleTranslate s o now_id now_ts))) =
    (if nonempty (trim (sourceText s)) then 1 else 0) /\
  (nonempty (trim (sourceText s)) = true ->
   hd_error (snd (handleTranslate s o now_id now_ts)) =
     Some (Fetch (sourceText s) (sourceLang s) (targetLang s))).
Proof.
  intros s o i t. unfold handleTranslate, translate_start.
  destruct (trim (sourceText s)); [split; [reflexivity | discriminate]|].
  unfold translate_finish.
  destruct o as [|[|] [d|]]; cbv beta iota zeta; split; reflexivity.
Qed.

(** Loading the record a successful [handleTranslate] has just put at the
    head of the history gives back the languages and text of that
    translation and its result, closes the history panel and keeps the
    history. *)
Theorem loadFromHistory_after_success : forall s data now_id now_ts,
  trim (sourceText s) <> [] ->
  let s1 := fst (handleTranslate s (Responded true (Some data)) now_id now_ts) in
  exists rec, hd_error (history s1) = Some rec /\
    sourceLang (loadFromHistory rec s1) = sourceLang s /\
    targetLang (loadFromHistory rec s1) = targetLang s /\
    sourceText (loadFromHistory rec s1) = sourceText s /\
    translatedText (loadFromHistory rec s1) = d_translation data /\
    history (loadFromHistory rec s1) = history s1 /\
    showHistory (loadFromHistory rec s1) = false.
Proof.
  intros s data i t H. unfold handleTranslate, translate_start.
  destruct (trim (sourceText s)); [congruence|].
  unfold translate_finish. cbv beta iota zeta.
  eexists. split; [reflexivity|]. repeat (split; [reflexivity|]). reflexivity.
Qed.

Lemma loadFromHistory_after_success_witness :
  let s := setSourceText (js "Hello") initial_state in
  let s1 := fst (handleTranslate s (Responded true (Some {| d_error := None; d_translation := js "Olá" |})) 1 1) in
  exists rec, hd_error (history s1) = Some rec /\
    sourceLang (loadFromHistory rec s1) = sourceLang s /\
    targetLang (loadFromHistory rec s1) = targetLang s /\
    sourceText (loadFromHistory rec s1) = sourceText s /\
    translatedText (loadFromHistory rec s1) = js "Olá" /\
    history (loadFromHistory rec s1) = history s1 /\
    showHistory (loadFromHistory rec s1) = false.
Proof. intro s. apply loadFromHistory_after_success. discriminate. Defined.

(** The copy button writes the translation to the clipboard, toasts, sets
    [copied] and schedules its reset; the reset undoes exactly that flag, so
    copy followed by the timer gives back the page as it was when [copied]
    was off. *)
Theorem copy_then_timeout : forall p p' eff,
  ui_step ClickCopy p = Some (p', eff) ->
  eff = [ClipboardWrite (translatedText (ui p)); ToastSuccess msg_copied; ScheduleCopiedReset] /\
  copied (ui p') = true /\
  ui_step CopiedTimeout p' = Some ({| ui := setCopied false (ui p); in_flight := in_flight p |}, []) /\
  (copied (ui p) = false -> setCopied false (ui p) = ui p).
Proof.
  intros [s fl] p' eff H. unfold ui_step in H; cbn beta iota zeta delta [ui in_flight] in H.
  destruct (nonempty (translatedText s)); [|discriminate].
  injection H as <- <-. repeat split.
  intro Hc. destruct s; simpl in *; subst; reflexivity.
Qed.

Lemma copy_then_timeout_witness :
  let p := {| ui := setTranslatedText (js "Olá") initial_state; in_flight := [] |} in
  let p' := {| ui := setCopied true (ui p); in_flight := [] |} in
  let eff := [ClipboardWrite (js "Olá"); ToastSuccess msg_copied; ScheduleCopiedReset] in
  eff = [ClipboardWrite (translatedText (ui p)); ToastSuccess msg_copied; ScheduleCopiedReset] /\
  copied (ui p') = true /\
  ui_step CopiedTimeout p' = Some ({| ui := setCopied false (ui p); in_flight := in_flight p |}, []) /\
  (copied (ui p) = false -> setCopied false (ui p) = ui p).
Proof. intros p p' eff. apply copy_then_timeout. reflexivity. Defined.

(** Because the translate button is disabled while a translation is in
    flight, a page the user can reach has at most one request in flight, has
    one exactly while [isTranslating] is set, and then refuses the click. *)
Theorem at_most_one_request : forall p,
  reachable p ->
  List.length (in_flight p) <= 1 /\
  (isTranslating (ui p) = true <-> in_flight p <> []) /\
  (isTranslating (ui p) = true -> ui_step ClickTranslate p = None).
Proof.
  intros p Hr. destruct (reachable_inv p Hr) as [_ [[Hf Hi] | (snap & Hf & Hi & _)]].
  - rewrite Hf, Hi. simpl. repeat split; try lia; try discriminate.
    intro H; exfalso; apply H; reflexivity.
  - rewrite Hf, Hi. simpl. repeat split; try lia; try discriminate.
    destruct p as [s fl]. simpl in Hi |- *. unfold ui_step. simpl. rewrite Hi. reflexivity.
Qed.

(** A request in flight. *)
Definition page_waiting : page :=
  Eval vm_compute in
  match run [EditSource (js "Hello"); ClickTranslate] initial_page with
  | Some p => p | None => initial_page end.

Lemma at_most_one_request_witness :
  isTranslating (ui page_waiting) = true /\
  List.length (in_flight page_waiting) <= 1 /\
  in_flight page_waiting <> [] /\
  ui_step ClickTranslate page_waiting = None.
Proof.
  assert (Hr : reachable page_waiting).
  { apply (run_reachable [EditSource (js "Hello"); ClickTranslate] initial_page);
      [apply reachable_init | vm_compute; reflexivity]. }
  destruct (at_most_one_request page_waiting Hr) as (H1 & H2 & H3).
  assert (Hi : isTranslating (ui page_waiting) = true) by reflexivity.
  split; [exact Hi|]. split; [exact H1|]. split; [exact (proj1 H2 Hi) | exact (H3 Hi)].
Defined.


(** Language codes taken from the selectors' table. *)
Definition record_codes_ok (r : translation) : Prop :=
  In (from r) language_codes /\ In (to r) language_codes.
Definition state_codes_ok (s : state) : Prop :=
  In (sourceLang s) language_codes /\ In (targetLang s) language_codes /\
  Forall record_codes_ok (history s).
Definition page_codes_ok (p : page) : Prop :=
  state_codes_ok (ui p) /\ Forall state_codes_ok (in_flight p).

Lemma existsb_jsstr_In : forall c l, existsb (jsstr_eqb c) l = true -> In c l.
Proof.
  intros c l H. apply existsb_exists in H. destruct H as (x & Hx & E).
  apply jsstr_eqb_eq in E. subst. exact Hx.
Qed.

Lemma Forall_firstn' : forall {A} (P : A -> Prop) n l, Forall P l -> Forall P (firstn n l).
Proof.
  intros A P n. induction n as [|n IH]; intros [|x l] H; simpl; auto.
  inversion H; subst. constructor; auto.
Qed.

Lemma Forall_remove_nth : forall {A} (P : A -> Prop) j l, Forall P l -> Forall P (remove_nth j l).
Proof.
  intros A P j. induction j as [|j IH]; intros [|x l] H; simpl; auto.
  - inversion H; auto.
  - inversion H; subst. constructor; auto.
Qed.

Ltac norm_state :=
  cbn [ui in_flight sourceText translatedText sourceLang targetLang isTranslating history
       showHistory copied apiError setSourceText setTranslatedText setSourceLang
       setTargetLang setIsTranslating setHistory setShowHistory setCopied setApiError
       swapLanguages loadFromHistory from to] in *.

Lemma ui_step_codes : forall p e p' eff,
  page_codes_ok p -> ui_step e p = Some (p', eff) -> page_codes_ok p'.
Proof.
  intros [s fl] e p' eff [[Hs [Ht Hh]] Hfl] H.
  unfold page_codes_ok, state_codes_ok in *.
  destruct e; unfold ui_step in H; cbn beta iota zeta delta [ui in_flight copyToClipboard] in H.
  - injection H as <- _. norm_state. tauto.
  - destruct (existsb (jsstr_eqb c) language_codes) eqn:E; [|discriminate].
    apply existsb_jsstr_In in E. injection H as <- _. norm_state. tauto.
  - destruct (existsb (jsstr_eqb c) language_codes) eqn:E; [|discriminate].
    apply existsb_jsstr_In in E. injection H as <- _. norm_state. tauto.
  - injection H as <- _. norm_state. tauto.
  - injection H as <- _. norm_state. tauto.
  - destruct (nonempty (sourceText s)); [|discriminate]. injection H as <- _. norm_state. tauto.
  - destruct (nonempty (translatedText s)); [|discriminate]. injection H as <- _. norm_state. tauto.
  - destruct (nonempty (translatedText s)); [|discriminate]. injection H as <- _. norm_state. tauto.
  - injection H as <- _. norm_state. tauto.
  - destruct (isTranslating s || negb (nonempty (trim (sourceText s)))); [discriminate|].
    unfold translate_start in H.
    destruct (trim (sourceText s)); injection H as <- _; norm_state;
      (split; [tauto|]); apply Forall_app; split; auto.
  - destruct (nth_error fl j) as [snap|] eqn:En; [|discriminate].
    assert (Hsnap : state_codes_ok snap).
    { rewrite Forall_forall in Hfl. apply Hfl. eapply nth_error_In; eauto. }
    destruct Hsnap as (Hs' & Ht' & Hh').
    destruct (is_failure o) eqn:Eo.
    + destruct (translate_finish_failure snap o now_id now_ts s Eo) as [m Hm].
      destruct (translate_finish snap o now_id now_ts s) as [s' eff'].
      simpl in Hm. subst s'. injection H as <- _. norm_state.
      split; [tauto|]. apply Forall_remove_nth; auto.
    + destruct o as [|[|] [d|]]; try discriminate.
      pose proof (translate_finish_success snap d now_id now_ts s) as Hsu.
      destruct (translate_finish snap (Responded true (Some d)) now_id now_ts s) as [s' eff'].
      simpl in Hsu. subst s'. injection H as <- _. norm_state.
      split; [|apply Forall_remove_nth; auto].
      split; [tauto|]. split; [tauto|].
      constructor; [split; cbn [from to]; auto|]. exact (Forall_firstn' record_codes_ok 9 (history snap) Hh').
  - destruct (showHistory s); [|discriminate].
    destruct (nth_error (history s) i) as [item|] eqn:Ei; [|discriminate].
    assert (Hit : record_codes_ok item).
    { rewrite Forall_forall in Hh. apply Hh. eapply nth_error_In; eauto. }
    destruct Hit as [Hf Hto].
    injection H as <- _. norm_state. tauto.
Qed.

(** In every reachable page the two selected languages, the languages of
    every history record and those of the request in flight are codes of the
    selectors' table: swapping, loading a record and translating only ever
    move codes that came from the table. *)
Theorem reachable_codes_in_table : forall p,
  reachable p -> page_codes_ok p.
Proof.
  induction 1.
  - unfold page_codes_ok, state_codes_ok. cbn [ui in_flight initial_page initial_state
      sourceLang targetLang history]. split; [|constructor].
    split; [vm_compute; tauto|]. split; [vm_compute; tauto | constructor].
  - eapply ui_step_codes; eauto.
Qed.

(** Selections, swaps, a translation and a load from the history. *)
Definition mixed_events : list ui_event :=
  [SelectSource (js "ja"); SelectTarget (js "fr"); ClickSwap; EditSource (js "Hello");
   ClickTranslate; RequestSettled 0 ok_answer 5 5; ClickHistoryButton;
   SelectTarget (js "de"); ClickHistoryItem 0; ClickSwap; SelectSource (js "ko")].

Definition page_mixed : page :=
  Eval vm_compute in
  match run mixed_events initial_page with Some p => p | None => initial_page end.

Lemma reachable_codes_in_table_witness :
  sourceLang (ui page_mixed) = js "ko" /\ targetLang (ui page_mixed) = js "fr" /\
  history (ui page_mixed) <> [] /\ page_codes_ok page_mixed.
Proof.
  split; [reflexivity|]. split; [reflexivity|]. split; [discriminate|].
  apply reachable_codes_in_table.
  apply (run_reachable mixed_events initial_page); [apply reachable_init|].
  vm_compute. reflexivity.
Defined.


(** How the page reads an answer of the proxy: [response.ok] is a status in
    200..299, and [data] is the JSON body ([data.translation] is only read
    on an ok answer). *)
Definition to_fetch_outcome (r : Route.response) : fetch_outcome :=
  Responded ((200 <=? Route.status r) && (Route.status r <? 300))%Z
    (Some match Route.body r with
          | Route.BError m => {| d_error := Some m; d_translation := [] |}
          | Route.BTranslation t => {| d_error := None; d_translation := t |}
          end).

Lemma language_codes_nonempty : forall c, In c language_codes -> c <> [].
Proof.
  intros c H. assert (Hall : forallb nonempty language_codes = true) by (vm_compute; reflexivity).
  rewrite forallb_forall in Hall. apply Hall in H. destruct c; [discriminate | congruence].
Qed.

Lemma trim_nil : trim [] = [].
Proof. reflexivity. Qed.

(** The request the page sends from a state it can reach is never refused by
    the proxy: with a credential configured, the proxy passes it to the
    provider (no 400 for missing fields, since the button needs a non-blank
    text and the codes come from the table). *)
Theorem click_translate_never_rejected : forall p p' eff key,
  reachable p -> ui_step ClickTranslate p = Some (p', eff) -> key <> [] ->
  exists t sl tl k,
    eff = [Fetch t sl tl] /\
    Route.POST (Some key) (Route.BodyObj (JStr t) (JStr sl) (JStr tl)) =
    Route.CallProvider
      (Route.chat_request_of key
         (Route.prompt_template (RouteFacts.code_name sl) (RouteFacts.code_name tl) t)) k.
Proof.
  intros p p' eff key Hr H Hk.
  destruct (reachable_codes_in_table p Hr) as [(Hs & Ht & _) _].
  destruct p as [s fl]. cbn [ui] in Hs, Ht.
  unfold ui_step in H; cbn beta iota zeta delta [ui in_flight] in H.
  destruct (isTranslating s || negb (nonempty (trim (sourceText s)))) eqn:Eb; [discriminate|].
  apply orb_false_iff in Eb. destruct Eb as [_ Eb].
  unfold translate_start in H.
  destruct (trim (sourceText s)) eqn:Et; [discriminate|].
  injection H as _ <-.
  exists (sourceText s), (sourceLang s), (targetLang s). eexists. split; [reflexivity|].
  apply RouteFacts.POST_valid_calls_provider; auto.
  - destruct (sourceText s); [rewrite trim_nil in Et; discriminate | reflexivity].
  - destruct (sourceLang s) eqn:E; [exfalso; apply (language_codes_nonempty _ Hs); reflexivity | reflexivity].
  - destruct (targetLang s) eqn:E; [exfalso; apply (language_codes_nonempty _ Ht); reflexivity | reflexivity].
  - apply RouteFacts.prompt_strings.
Qed.

Lemma click_translate_never_rejected_witness :
  let p := {| ui := setSourceText (js "Hello") initial_state; in_flight := [] |} in
  exists p' eff, ui_step ClickTranslate p = Some (p', eff) /\
  exists t sl tl k,
    eff = [Fetch t sl tl] /\
    Route.POST (Some (js "sk-live")) (Route.BodyObj (JStr t) (JStr sl) (JStr tl)) =
    Route.CallProvider
      (Route.chat_request_of (js "sk-live")
         (Route.prompt_template (RouteFacts.code_name sl) (RouteFacts.code_name tl) t)) k.
Proof.
  intro p. eexists. eexists. split; [reflexivity|].
  eapply (click_translate_never_rejected p).
  - apply (reachable_step initial_page (EditSource (js "Hello")) p []);
      [apply reachable_init | reflexivity].
  - reflexivity.
  - discriminate.
Defined.

Lemma handle_error_answer : forall s m st now_id now_ts,
  trim (sourceText s) <> [] -> m <> [] ->
  ((200 <=? st) && (st <? 300))%Z = false ->
  apiError (fst (handleTranslate s (to_fetch_outcome (Route.json (Route.BError m) st))
                   now_id now_ts)) = Some m.
Proof.
  intros s m st i t Ht Hm Hst. unfold to_fetch_outcome, Route.json.
  cbn [Route.status Route.body]. rewrite Hst.
  unfold handleTranslate, translate_start.
  destruct (trim (sourceText s)); [congruence|].
  unfold translate_finish. cbv beta iota zeta.
  destruct m; [congruence|]. reflexivity.
Qed.

(** The page and the proxy together: for a non-blank text and non-empty
    codes with a credential configured, the text the provider returns, once
    trimmed by the proxy, becomes the page's translation with no error, and
    a provider failure shows on the page exactly the proxy's error message
    (401, 429 or 500). *)
Theorem end_to_end_relay : forall s key now_id now_ts,
  key <> [] -> trim (sourceText s) <> [] -> sourceLang s <> [] -> targetLang s <> [] ->
  exists k,
    Route.POST (Some key) (Route.BodyObj (JStr (sourceText s)) (JStr (sourceLang s)) (JStr (targetLang s)))
    = Route.CallProvider
        (Route.chat_request_of key
           (Route.prompt_template (RouteFacts.code_name (sourceLang s))
              (RouteFacts.code_name (targetLang s)) (sourceText s))) k /\
    (forall c,
       translatedText (fst (handleTranslate s (to_fetch_outcome (k (Route.Completed c))) now_id now_ts))
       = Route.extract_translation c /\
       apiError (fst (handleTranslate s (to_fetch_outcome (k (Route.Completed c))) now_id now_ts))
       = None) /\
    (forall e,
       apiError (fst (handleTranslate s (to_fetch_outcome (k (Route.Threw e))) now_id now_ts))
       = Some match Route.body (Route.catch_response e) with
              | Route.BError m => m
              | Route.BTranslation _ => []
              end).
Proof.
  intros s key i t Hk Ht Hs Hl.
  eexists. split.
  - apply RouteFacts.POST_valid_calls_provider; auto.
    + destruct (sourceText s); [contradiction | reflexivity].
    + destruct (sourceLang s); [contradiction | reflexivity].
    + destruct (targetLang s); [contradiction | reflexivity].
    + apply RouteFacts.prompt_strings.
  - split.
    + intro c. unfold to_fetch_outcome, Route.json. cbn [Route.status Route.body].
      unfold handleTranslate, translate_start.
      destruct (trim (sourceText s)); [congruence|].
      unfold translate_finish. cbv beta iota zeta. split; reflexivity.
    + intro e. cbv beta iota. unfold Route.catch_response.
      destruct (Route.status_is e 401 || Route.message_includes e (js "Incorrect API key"));
        [refine (handle_error_answer s Route.msg_unauthorized 401 i t Ht _ eq_refl)
        |destruct (Route.status_is e 429);
          [refine (handle_error_answer s Route.msg_rate_limited 429 i t Ht _ eq_refl)
          |refine (handle_error_answer s Route.msg_upstream 500 i t Ht _ eq_refl)]];
        vm_compute; discriminate.
Qed.

Lemma end_to_end_relay_witness :
  let s := setSourceText (js "Hello") initial_state in
  exists k,
    Route.POST (Some (js "sk-live")) (Route.BodyObj (JStr (sourceText s)) (JStr (sourceLang s)) (JStr (targetLang s)))
    = Route.CallProvider
        (Route.chat_request_of (js "sk-live")
           (Route.prompt_template (RouteFacts.code_name (sourceLang s))
              (RouteFacts.code_name (targetLang s)) (sourceText s))) k /\
    (forall c,
       translatedText (fst (handleTranslate s (to_fetch_outcome (k (Route.Completed c))) 1 1))
       = Route.extract_translation c /\
       apiError (fst (handleTranslate s (to_fetch_outcome (k (Route.Completed c))) 1 1))
       = None) /\
    (forall e,
       apiError (fst (handleTranslate s (to_fetch_outcome (k (Route.Threw e))) 1 1))
       = Some match Route.body (Route.catch_response e) with
              | Route.BError m => m
              | Route.BTranslation _ => []
              end).
Proof. intro s. apply end_to_end_relay; discriminate. Defined.

End PageMore.
